(** * The ASCII waveform renderer of [src/extension.ts]

    A shallow embedding of [padEnd] and [generateAsciiArt] and of the
    fragment of JavaScript they run on, followed by the properties the
    specification states about them.  After them come the rest of the
    file: [getTitle], the class [WaveformRenderPanel] with the live
    preview, and the command that writes the ASCII art, each run against
    the answers of the editor and with the calls into it kept as a trace.

    Modelling decisions, all taken from the source:

    - A JavaScript string is a sequence of UTF-16 code units and [.length]
      counts code units.  The overline glyph of the token table is U+203E,
      one code unit, so the run for ['P'] has length 6.
    - A signal comes out of [JSON.parse]: nothing enforces the declared type
      [{ name: string; wave: string }] at run time, so a field is either a
      string or absent ([undefined]).  Other JSON values are outside the
      declared type and are not modelled.
    - Reading a property of [undefined] throws a [TypeError];
      [String.prototype.repeat] throws a [RangeError] on a negative count.
      Both are kept, as an error monad.
    - [targetLength] is a JavaScript number; it is taken to be an integer
      (the only call passes the literal 10), negative values included.
      Strings are unbounded, as in ECMAScript (engines cap their length). *)

From Stdlib Require Import ZArith NArith Ascii String.
From stdpp Require Import base tactics option list gmap.

Local Open Scope Z_scope.

(** ** The JavaScript fragment *)

Module JS.

(** UTF-16 code units and strings; abbreviations, so that the list
    lemmas apply to strings as they are. *)
Abbreviation code_unit := N.
Abbreviation jsstring := (list code_unit).

(** A string literal of the source that only has ASCII characters. *)
Definition lit (s : string) : jsstring :=
  N_of_ascii <$> list_ascii_of_string s.

(** U+203E OVERLINE and U+000A LINE FEED. *)
Definition overline : code_unit := 8254%N.
Definition newline : code_unit := 10%N.

(** Abrupt completions the two functions can run into. *)
Inductive error : Type := TypeError | RangeError.

Inductive completion (A : Type) : Type :=
| Normal (a : A)
| Throw (e : error).
Global Arguments Normal {A} a.
Global Arguments Throw {A} e.

Global Instance completion_ret : MRet completion := fun A a => Normal a.
Global Instance completion_bind : MBind completion := fun A B k c =>
  match c with
  | Normal a => k a
  | Throw e => Throw e
  end.
Global Instance completion_fmap : FMap completion := fun A B f c =>
  match c with
  | Normal a => Normal (f a)
  | Throw e => Throw e
  end.

(** What a field of a decoded signal holds. *)
Inductive value : Type :=
| Undefined
| Str (s : jsstring).

(** [v.p] and [v.m(...)] first need [v] to be an object or a primitive
    with a wrapper: on [undefined] they throw a [TypeError]. *)
Definition receiver (v : value) : completion jsstring :=
  match v with
  | Undefined => Throw TypeError
  | Str s => Normal s
  end.

(** [s.length] *)
Definition strlen (s : jsstring) : Z := Z.of_nat (length s).

(** [s.repeat(count)] for an integer [count]. *)
Definition repeat (s : jsstring) (count : Z) : completion jsstring :=
  if bool_decide (count < 0) then Throw RangeError
  else Normal (concat (replicate (Z.to_nat count) s)).

(** [s.split('')]: one string per code unit. *)
Definition split_empty (s : jsstring) : list jsstring :=
  (fun u => [u]) <$> s.

(** [a.join('')] *)
Definition join_empty (a : list jsstring) : jsstring := concat a.

(** [o[k] || d] where [o[k]] is a string or [undefined]: the empty string
    is falsy too. *)
Definition or_else (v : option jsstring) (d : jsstring) : jsstring :=
  match v with
  | Some [] | None => d
  | Some s => s
  end.

(** [for (const x of xs) { acc = body(acc, x) }], stopping at a throw. *)
Fixpoint for_of {A S : Type} (body : S -> A -> completion S)
    (xs : list A) (acc : S) : completion S :=
  match xs with
  | [] => Normal acc
  | x :: xs' => acc' ← body acc x; for_of body xs' acc'
  end.

End JS.

Import JS.

(** ** The source functions *)

(** An element of [parsedContent.signal].  [data] is the optional list of
    labels of WaveDrom; [generateAsciiArt] never reads it. *)
Record Signal : Type := mkSignal {
  name : value;
  wave : value;
  data : option (list jsstring);
}.

(** [function padEnd(str, targetLength, padChar = ' ')].  The third argument
    is [None] when the caller leaves it out. *)
Definition padEnd (str : value) (targetLength : Z)
    (padChar : option jsstring) : completion jsstring :=
  let padChar := default (lit " ") padChar in
  s ← receiver str;
  if bool_decide (strlen s >= targetLength) then
    mret s
  else
    pad ← repeat padChar (targetLength - strlen s);
    mret (s ++ pad).

(** The object literal [waveMapping].  Its keys are looked up with the
    one-code-unit strings that [split('')] yields; [Object.prototype] has no
    property with such a name, so own properties are all there is. *)
Definition waveMapping : gmap jsstring jsstring :=
  list_to_map [
    (lit "P", lit "|" ++ [overline; overline; overline; overline] ++ lit "|");
    (lit "0", lit "____");
    (lit "1", [overline; overline; overline; overline]);
    (lit ".", lit "    ");
    (lit "x", lit "xxxx");
    (lit "=", lit "====")
  ].

(** [char => waveMapping[char] || '????'] *)
Definition glyph (char : jsstring) : jsstring :=
  or_else (waveMapping !! char) (lit "????").

(** The template string of line 36: the padded name and the separator. *)
Definition labelField (signal : Signal) : completion jsstring :=
  padded ← padEnd (name signal) 10 None;
  mret (padded ++ lit ": ").

(** The constant [wave] of line 37. *)
Definition waveField (signal : Signal) : completion jsstring :=
  w ← receiver (wave signal);
  mret (join_empty (glyph <$> split_empty w)).

(** One turn of the loop of lines 35 to 39. *)
Definition loopBody (asciiArt : jsstring) (signal : Signal)
    : completion jsstring :=
  label ← labelField signal;
  let asciiArt := asciiArt ++ label in
  wave ← waveField signal;
  mret (asciiArt ++ (wave ++ [newline])).

Definition generateAsciiArt (signals : list Signal) : completion jsstring :=
  for_of loopBody signals [].

(** ** Vocabulary of the specification *)

(** The text one signal contributes: the loop body run on an empty
    accumulator. *)
Definition signalLine (signal : Signal) : completion jsstring :=
  loopBody [] signal.

(** The contributions of all signals, in order. *)
Fixpoint outputLines (signals : list Signal) : completion (list jsstring) :=
  match signals with
  | [] => Normal []
  | signal :: rest =>
      line ← signalLine signal;
      lines ← outputLines rest;
      mret (line :: lines)
  end.

(** The line of a signal as a text, empty where there is none. *)
Definition lineText (signal : Signal) : jsstring :=
  match signalLine signal with
  | Normal line => line
  | Throw _ => []
  end.

(** Both fields are strings, as the declared parameter type asks. *)
Definition wellFormed (signal : Signal) : Prop :=
  (exists n, name signal = Str n) /\ (exists w, wave signal = Str w).

(** A field is absent. *)
Definition missingField (signal : Signal) : Prop :=
  name signal = Undefined \/ wave signal = Undefined.

(** The signal with absent fields read as empty strings. *)
Definition orEmpty (v : value) : value :=
  match v with
  | Undefined => Str []
  | Str s => Str s
  end.

Definition absentAsEmpty (signal : Signal) : Signal :=
  mkSignal (orEmpty (name signal)) (orEmpty (wave signal)) (data signal).

(** The code unit of an ASCII character. *)
Definition chr (a : ascii) : code_unit := N_of_ascii a.

Definition space : code_unit := chr " ".

(** The six tokens of the table. *)
Definition recognized (c : code_unit) : Prop :=
  c = chr "P" \/ c = chr "0" \/ c = chr "1" \/ c = chr "." \/ c = chr "x"
  \/ c = chr "=".

(** The token table as the specification words it: one run per character,
    and the placeholder for every character outside the table. *)
Definition tokenRun (c : code_unit) : jsstring :=
  if decide (c = chr "P") then
    [chr "|"; overline; overline; overline; overline; chr "|"]
  else if decide (c = chr "0") then replicate 4 (chr "_")
  else if decide (c = chr "1") then replicate 4 overline
  else if decide (c = chr ".") then replicate 4 space
  else if decide (c = chr "x") then replicate 4 (chr "x")
  else if decide (c = chr "=") then replicate 4 (chr "=")
  else replicate 4 (chr "?").

(** The run width of the specification: 6 for ['P'], 4 otherwise. *)
Definition runWidth (c : code_unit) : nat :=
  if decide (c = chr "P") then 6%nat else 4%nat.

(** Two signals that can only differ in [data]. *)
Definition sameNameWave (a b : Signal) : Prop :=
  name a = name b /\ wave a = wave b.

Definition withoutData (signal : Signal) : Signal :=
  mkSignal (name signal) (wave signal) None.

(** Rearranging a list along a list of positions. *)
Definition reorder {A : Type} (idx : list nat) (l : list A) : list A :=
  omap (fun i => l !! i) idx.

(** Cutting a text after each line feed; the rest after the last one, if
    not empty, is a last piece. *)
Fixpoint cutLines (acc text : jsstring) : list jsstring :=
  match text with
  | [] => match acc with [] => [] | _ => [acc] end
  | u :: text' =>
      if decide (u = newline) then (acc ++ [u]) :: cutLines [] text'
      else cutLines (acc ++ [u]) text'
  end.

(** ** More of the JavaScript fragment *)

Module JSText.

(** U+005C REVERSE SOLIDUS, U+002F SOLIDUS and U+0022 QUOTATION MARK. *)
Definition backslash : code_unit := 92%N.
Definition slash : code_unit := 47%N.
Definition quote : code_unit := 34%N.

(** [s.split(sep)] for a separator of one code unit: the pieces between
    the separators, one more than there are separators. *)
Fixpoint split_on (sep : code_unit) (s : jsstring) : list jsstring :=
  match s with
  | [] => [[]]
  | u :: s' =>
      if decide (u = sep) then [] :: split_on sep s'
      else
        match split_on sep s' with
        | piece :: pieces => (u :: piece) :: pieces
        | [] => [[u]]
        end
  end.

(** [a.pop()] as an expression: the last element, [undefined] on an empty
    array. *)
Definition pop (a : list jsstring) : value :=
  match last a with
  | Some s => Str s
  | None => Undefined
  end.

(** [s + v]: a string followed by [v] converted to a string. *)
Definition plus (s : jsstring) (v : value) : jsstring :=
  match v with
  | Str t => s ++ t
  | Undefined => s ++ lit "undefined"
  end.

End JSText.

Import JSText.

(** ** The title of the panel *)

(** What the extension reads of [vscode.window.activeTextEditor]: the
    document's [fileName], its [uri.path] and its [getText()]. *)
Record Editor : Type := mkEditor {
  fileName : jsstring;
  uriPath : jsstring;
  getText : jsstring;
}.

(** [vscode.window.activeTextEditor.document]: the editor is [undefined]
    when no text editor has the focus, and reading [document] then throws. *)
Definition document (activeTextEditor : option Editor) : completion Editor :=
  match activeTextEditor with
  | Some editor => Normal editor
  | None => Throw TypeError
  end.

(** [function getTitle()] *)
Definition getTitle (activeTextEditor : option Editor) : completion jsstring :=
  doc ← document activeTextEditor;
  tail ← receiver (pop (split_on backslash (fileName doc)));
  mret (plus (lit "Waveform Render: ") (pop (split_on slash tail))).

(** ** The panel and the live preview *)

(** The class [WaveformRenderPanel] runs against the editor: what it asks
    of it is kept as a trace of calls, what it gets back are handles that
    the editor numbers in the order they are made, and what it reads of it
    (the active text editor, the resource URIs) is given with each call.
    Callbacks are run by the editor; they are steps of their own. *)

Module Panel.

Abbreviation handle := nat.

(** The calls into the editor, in the order they are made. *)
Inductive event : Type :=
| ShowInformationMessage (message : jsstring)
    (* vscode.window.showInformationMessage(message) *)
| OnDidChangeTextDocument (listener : handle) (extensionPath : jsstring)
    (* vscode.workspace.onDidChangeTextDocument(cb) returned [listener];
       [cb] calls createOrShow(extensionPath) *)
| Dispose (h : handle)
    (* h.dispose(), on a listener or on a webview panel *)
| CreateWebviewPanel (panel : handle) (title : jsstring)
    (* vscode.window.createWebviewPanel(viewType, title, ...) returned
       [panel] *)
| SetTitle (panel : handle) (title : jsstring)
    (* panel.title = title *)
| SetHtml (panel : handle) (html : jsstring)
    (* panel.webview.html = html *)
| OnDidDispose (panel : handle) (listener : handle) (extensionPath : jsstring).
    (* panel.onDidDispose(() => this.dispose(), null, this._disposables)
       returned [listener], for the instance with this [_extensionPath] *)

(** An instance of the class: its three private fields. *)
Record WaveformRenderPanel : Type := mkPanel {
  _panel : handle;
  _extensionPath : jsstring;
  _disposables : list handle;
}.

(** [livePreviewDocumentPath] has no initializer, is set to [null] when the
    live preview is switched off and to a path when it is switched on. *)
Inductive documentPath : Type :=
| PathUndefined
| PathNull
| PathOf (path : jsstring).

(** The static fields of the class, and the editor's side: the next handle
    it hands out and the calls it has received. *)
Record Machine : Type := mkMachine {
  currentPanel : option WaveformRenderPanel;
  livePreview : bool;
  livePreviewDocumentPath : documentPath;
  listenerTextChange : option handle;
  nextHandle : handle;
  trace : list event;
}.

(** The class as it is loaded. *)
Definition initial : Machine :=
  mkMachine None false PathUndefined None 0%nat [].

(** What a call reads of the editor. *)
Record Env : Type := mkEnv {
  activeTextEditor : option Editor;
  (* the text of webview.asWebviewUri(vscode.Uri.file(path.join(...parts)))
     of the panel *)
  asWebviewUri : handle -> list jsstring -> jsstring;
}.

(** Code that changes the machine and may throw; what it changed before a
    throw stays changed. *)
Definition Eff (A : Type) : Type := Machine -> completion A * Machine.

Global Instance Eff_ret : MRet Eff := fun A a m => (Normal a, m).
Global Instance Eff_bind : MBind Eff := fun A B k c m =>
  match c m with
  | (Normal a, m') => k a m'
  | (Throw e, m') => (Throw e, m')
  end.

Definition lift {A : Type} (c : completion A) : Eff A := fun m => (c, m).

Definition read {A : Type} (field : Machine -> A) : Eff A :=
  fun m => (Normal (field m), m).

Definition call (e : event) : Eff unit := fun m =>
  (Normal (),
   mkMachine (currentPanel m) (livePreview m) (livePreviewDocumentPath m)
     (listenerTextChange m) (nextHandle m) (trace m ++ [e])).

(** A call of the editor that returns a new object. *)
Definition create (e : handle -> event) : Eff handle := fun m =>
  (Normal (nextHandle m),
   mkMachine (currentPanel m) (livePreview m) (livePreviewDocumentPath m)
     (listenerTextChange m) (S (nextHandle m)) (trace m ++ [e (nextHandle m)])).

Definition set_currentPanel (v : option WaveformRenderPanel) : Eff unit :=
  fun m =>
  (Normal (),
   mkMachine v (livePreview m) (livePreviewDocumentPath m)
     (listenerTextChange m) (nextHandle m) (trace m)).

Definition set_livePreview (v : bool) : Eff unit := fun m =>
  (Normal (),
   mkMachine (currentPanel m) v (livePreviewDocumentPath m)
     (listenerTextChange m) (nextHandle m) (trace m)).

Definition set_livePreviewDocumentPath (v : documentPath) : Eff unit :=
  fun m =>
  (Normal (),
   mkMachine (currentPanel m) (livePreview m) v
     (listenerTextChange m) (nextHandle m) (trace m)).

Definition set_listenerTextChange (v : option handle) : Eff unit := fun m =>
  (Normal (),
   mkMachine (currentPanel m) (livePreview m) (livePreviewDocumentPath m)
     v (nextHandle m) (trace m)).

(** [p != s] for a string [s]: [null] and [undefined] differ from every
    string. *)
Definition differs (p : documentPath) (s : jsstring) : bool :=
  match p with
  | PathOf q => bool_decide (q <> s)
  | PathUndefined | PathNull => true
  end.

(** The default value of the parameter of [_update]. *)
Definition defaultFileContents : jsstring :=
  concat [
    lit "{ signal: ["; [newline];
    lit "    { name: "; [quote]; lit "clk"; [quote]; lit ",         wave: "; [quote]; lit "p.....|..."; [quote]; lit " },"; [newline];
    lit "    { name: "; [quote]; lit "Data"; [quote]; lit ",        wave: "; [quote]; lit "x.345x|=.x"; [quote]; lit ", data: ["; [quote]; lit "head"; [quote]; lit ", "; [quote]; lit "body"; [quote]; lit ", "; [quote]; lit "tail"; [quote]; lit ", "; [quote]; lit "data"; [quote]; lit "] },"; [newline];
    lit "    { name: "; [quote]; lit "Request"; [quote]; lit ",     wave: "; [quote]; lit "0.1..0|1.0"; [quote]; lit " },"; [newline];
    lit "    {},"; [newline];
    lit "    { name: "; [quote]; lit "Acknowledge"; [quote]; lit ", wave: "; [quote]; lit "1.....|01."; [quote]; lit " }"; [newline];
    lit "  ]}"  ].

(** [private _getHtmlForWebview(waveformJson)] *)
Definition _getHtmlForWebview (env : Env) (this : WaveformRenderPanel)
    (waveformJson : jsstring) : jsstring :=
  let scriptUri :=
    asWebviewUri env (_panel this)
      [_extensionPath this; lit "localScripts"; lit "wavedrom.min.js"] in
  let defaultUri :=
    asWebviewUri env (_panel this)
      [_extensionPath this; lit "localScripts/skins"; lit "default.js"] in
  let narrowUri :=
    asWebviewUri env (_panel this)
      [_extensionPath this; lit "localScripts/skins"; lit "narrow.js"] in
  let lowkeyUri :=
    asWebviewUri env (_panel this)
      [_extensionPath this; lit "localScripts/skins"; lit "lowkey.js"] in
  concat [
    lit "<!DOCTYPE html>"; [newline];
    lit "            <html lang="; [quote]; lit "en"; [quote]; lit ">"; [newline];
    lit "            <head>"; [newline];
    lit "                <meta charset="; [quote]; lit "UTF-8"; [quote]; lit ">"; [newline];
    [newline];
    lit "                  <script src="; [quote]; scriptUri; [quote]; lit "></script>"; [newline];
    [newline];
    lit "                  <script src="; [quote]; defaultUri; [quote]; lit "></script>"; [newline];
    lit "                  <script src="; [quote]; narrowUri; [quote]; lit "></script>"; [newline];
    lit "                  <script src="; [quote]; lowkeyUri; [quote]; lit "></script>"; [newline];
    [newline];
    lit "                  <title>waveform render</title>"; [newline];
    lit "            </head>"; [newline];
    [newline];
    lit "            <body onload="; [quote]; lit "WaveDrom.ProcessAll()"; [quote]; lit " style="; [quote]; lit "background-color: white;"; [quote]; lit ">"; [newline];
    lit "              <div>"; [newline];
    lit "                <script type="; [quote]; lit "WaveDrom"; [quote]; lit ">"; [newline];
    lit "                  "; waveformJson; [newline];
    lit "                </script>"; [newline];
    lit "              </div>"; [newline];
    lit "            </body>"; [newline];
    lit "            </html>"  ].

(** [private _update(fileContents = ...)] *)
Definition _update (env : Env) (this : WaveformRenderPanel)
    (fileContents : option jsstring) : Eff unit :=
  let fileContents := default defaultFileContents fileContents in
  call (SetHtml (_panel this) (_getHtmlForWebview env this fileContents)).

(** [private _updateWithFileContent()] *)
Definition _updateWithFileContent (env : Env) (this : WaveformRenderPanel)
    : Eff unit :=
  doc ← lift (document (activeTextEditor env));
  let docContent := getText doc in
  _update env this (Some docContent).

(** [private constructor(panel, extensionPath)] *)
Definition constructor (env : Env) (panel : handle) (extensionPath : jsstring)
    : Eff WaveformRenderPanel :=
  let this := mkPanel panel extensionPath [] in
  _updateWithFileContent env this;;
  listener ← create (fun h => OnDidDispose panel h extensionPath);
  mret (mkPanel panel extensionPath [listener]).

(** [public static disableLivePreview()] *)
Definition disableLivePreview : Eff unit :=
  set_livePreviewDocumentPath PathNull;;
  listener ← read listenerTextChange;
  match listener with
  | Some h => call (Dispose h)
  | None => mret ()
  end;;
  set_livePreview false.

(** [public static createOrShow(extensionPath)] *)
Definition createOrShow (env : Env) (extensionPath : jsstring) : Eff unit :=
  current ← read currentPanel;
  match current with
  | Some this =>
      live ← read livePreview;
      other ←
        (if live : bool then
           path ← read livePreviewDocumentPath;
           doc ← lift (document (activeTextEditor env));
           mret (differs path (uriPath doc))
         else mret false);
      if other : bool then mret ()
      else
        title ← lift (getTitle (activeTextEditor env));
        call (SetTitle (_panel this) title);;
        _updateWithFileContent env this
  | None =>
      title ← lift (getTitle (activeTextEditor env));
      panel ← create (fun h => CreateWebviewPanel h title);
      this ← constructor env panel extensionPath;
      set_currentPanel (Some this)
  end.

(** [public static toggleLivePreview(extensionPath)] *)
Definition toggleLivePreview (env : Env) (extensionPath : jsstring)
    : Eff unit :=
  live ← read livePreview;
  (if live : bool then disableLivePreview
   else
     doc ← lift (document (activeTextEditor env));
     set_livePreviewDocumentPath (PathOf (uriPath doc));;
     listener ← create (fun h => OnDidChangeTextDocument h extensionPath);
     set_listenerTextChange (Some listener);;
     set_livePreview true;;
     createOrShow env extensionPath);;
  live ← read livePreview;
  call (ShowInformationMessage
          (lit "Waveform Live Preview: "
             ++ (if live : bool then lit "ON" else lit "OFF"))).

(** The loop of [dispose]: pop a disposable and dispose of it, until none
    is left. *)
Fixpoint disposeAll (disposables : list handle) : Eff unit :=
  match disposables with
  | [] => mret ()
  | x :: rest => call (Dispose x);; disposeAll rest
  end.

(** [public dispose()]; [pop] takes the disposables from the end. *)
Definition dispose (this : WaveformRenderPanel) : Eff unit :=
  set_currentPanel None;;
  call (Dispose (_panel this));;
  disposeAll (reverse (_disposables this)).

(** The command [waveformRender.start] of [activate]. *)
Definition start (env : Env) (extensionPath : jsstring) : Eff unit :=
  disableLivePreview;;
  call (ShowInformationMessage
          (lit "Waveform refreshed manually, Live Preview OFF"));;
  createOrShow env extensionPath.

(** The text-change listeners and the panels with a dispose callback
    that the editor holds after the calls of a trace: registering adds
    one, disposing of a handle removes what it stands for. *)
Definition listen (held : list (handle * jsstring)) (e : event)
    : list (handle * jsstring) :=
  match e with
  | OnDidChangeTextDocument h path => held ++ [(h, path)]
  | Dispose h => filter (fun l => l.1 <> h) held
  | _ => held
  end.

Definition liveListeners (t : list event) : list (handle * jsstring) :=
  foldl listen [] t.

Definition hook (held : list WaveformRenderPanel) (e : event)
    : list WaveformRenderPanel :=
  match e with
  | OnDidDispose panel h path => held ++ [mkPanel panel path [h]]
  | Dispose h => filter (fun this => _panel this <> h) held
  | _ => held
  end.

Definition livePanels (t : list event) : list WaveformRenderPanel :=
  foldl hook [] t.

(** What can happen, with the editor as it is at that moment: one of the
    two commands is run, a text document changes and the editor calls a
    listener it holds, or a panel is closed and the editor calls its
    [onDidDispose] callback.  An exception ends the call; the editor
    reports it and goes on. *)
Inductive step (extensionPath : jsstring) : Machine -> Machine -> Prop :=
| step_start env m :
    step extensionPath m (start env extensionPath m).2
| step_toggle env m :
    step extensionPath m (toggleLivePreview env extensionPath m).2
| step_textChanged env m h path :
    (h, path) ∈ liveListeners (trace m) ->
    step extensionPath m (createOrShow env path m).2
| step_panelClosed m this :
    this ∈ livePanels (trace m) ->
    step extensionPath m (dispose this m).2.

Inductive reachable (extensionPath : jsstring) : Machine -> Prop :=
| reachable_initial : reachable extensionPath initial
| reachable_step m m' :
    reachable extensionPath m -> step extensionPath m m' ->
    reachable extensionPath m'.

End Panel.

(** ** The command that writes the ASCII art *)

(** The handler of [waveform-render.generateAscii] asks the editor for a
    file, reads and decodes it, renders it and shows the result.  What the
    editor, the file system and [JSON.parse] answer is given; the calls
    that show something are kept as a trace. *)

Module Command.

(** What the [catch] clause can receive: an error of [generateAsciiArt],
    or whatever a call of the host threw or rejected with. *)
Inductive exn : Type :=
| FromRenderer (e : error)
| FromHost (what : jsstring).

Inductive outcome (A : Type) : Type :=
| Returned (a : A)
| Raised (x : exn).
Global Arguments Returned {A} a.
Global Arguments Raised {A} x.

(** The decoded file as far as the handler looks at it: a falsy value
    ([null], [false], [0], the empty string), or a truthy one whose
    [signal] property is an array or is not.  The elements of the array are
    taken to be signals, as the parameter type of [generateAsciiArt]
    declares them. *)
Inductive signalProperty : Type :=
| NotAnArray
| SignalArray (signals : list Signal).

Inductive parsedContent : Type :=
| Falsy
| Truthy (signal : signalProperty).

(** The answers of the host. *)
Record Host : Type := mkHost {
  (* await vscode.window.showOpenDialog(...): undefined, or the fsPath of
     each chosen file *)
  showOpenDialog : outcome (option (list jsstring));
  (* fs.readFileSync(filePath, 'utf8') *)
  readFileSync : jsstring -> outcome jsstring;
  (* JSON.parse(fileContent) *)
  JSON_parse : jsstring -> outcome parsedContent;
  (* await vscode.workspace.openTextDocument({ content, language }): the
     number of the document *)
  openTextDocument : jsstring -> outcome nat;
  (* await vscode.window.showTextDocument(document) *)
  showTextDocument : nat -> outcome unit;
}.

(** The calls that the user can see, in the order they are made. *)
Inductive event : Type :=
| ShowWarningMessage (message : jsstring)
| ShowErrorMessage (message : jsstring)
| ConsoleError (message : jsstring) (x : exn)
| OpenTextDocument (content language : jsstring)
| ShowTextDocument (document : nat).

(** Code that makes calls and may throw. *)
Definition Act (A : Type) : Type := list event -> outcome A * list event.

Global Instance Act_ret : MRet Act := fun A a t => (Returned a, t).
Global Instance Act_bind : MBind Act := fun A B k c t =>
  match c t with
  | (Returned a, t') => k a t'
  | (Raised x, t') => (Raised x, t')
  end.

(** A call of the host that is given its answer. *)
Definition answer {A : Type} (o : outcome A) : Act A := fun t => (o, t).

Definition call (e : event) : Act unit := fun t => (Returned (), t ++ [e]).

(** A call of [generateAsciiArt]. *)
Definition render (c : completion jsstring) : Act jsstring := fun t =>
  match c with
  | Normal text => (Returned text, t)
  | Throw e => (Raised (FromRenderer e), t)
  end.

(** [try { body } catch (error) { handler(error) }] *)
Definition try_catch (body : Act unit) (handler : exn -> Act unit)
    : Act unit := fun t =>
  match body t with
  | (Returned tt, t') => (Returned tt, t')
  | (Raised x, t') => handler x t'
  end.

(** The [try] block of the handler. *)
Definition generateAsciiBody (host : Host) : Act unit :=
  fileUri ← answer (showOpenDialog host);
  match fileUri with
  | None | Some [] =>
      call (ShowWarningMessage (lit "No file selected."))
  | Some (filePath :: _) =>
      fileContent ← answer (readFileSync host filePath);
      parsed ← answer (JSON_parse host fileContent);
      match parsed with
      | Falsy | Truthy NotAnArray =>
          call (ShowErrorMessage
                  (lit "Invalid WaveDrom JSON file: Missing " ++ [quote]
                     ++ lit "signal" ++ [quote] ++ lit " array."))
      | Truthy (SignalArray signals) =>
          asciiArt ← render (generateAsciiArt signals);
          call (OpenTextDocument asciiArt (lit "plaintext"));;
          document ← answer (openTextDocument host asciiArt);
          call (ShowTextDocument document);;
          answer (showTextDocument host document)
      end
  end.

(** The handler registered for [waveform-render.generateAscii]. *)
Definition generateAscii (host : Host) : Act unit :=
  try_catch (generateAsciiBody host) (fun error =>
    call (ConsoleError (lit "Error generating ASCII Art:") error);;
    call (ShowErrorMessage
            (lit "An error occurred while generating ASCII Art. "
               ++ lit "See console for details."))).

(** The calls of one run of the handler. *)
Definition run (host : Host) : list event := (generateAscii host []).2.

(** The calls that tell the user something. *)
Definition isMessage (e : event) : bool :=
  match e with
  | ShowWarningMessage _ | ShowErrorMessage _ => true
  | _ => false
  end.

End Command.

(** ** Vocabulary of the further properties *)

(** The length of the line of a signal with both fields: the name or the
    ten columns of the label, the separator, the runs, the line feed. *)
Definition lineWidth (signal : Signal) : nat :=
  match name signal, wave signal with
  | Str n, Str w =>
      (length n `max` 10 + 2 + sum_list (runWidth <$> w) + 1)%nat
  | _, _ => 0%nat
  end.

(** The pieces of a text put together again around a separator. *)
Fixpoint join_with (sep : code_unit) (pieces : list jsstring) : jsstring :=
  match pieces with
  | [] => []
  | [piece] => piece
  | piece :: rest => piece ++ sep :: join_with sep rest
  end.

(** A path separator, of either kind. *)
Definition separator (c : code_unit) : Prop :=
  c = slash \/ c = backslash.

(** ** What the panel keeps *)

Module PanelInvariant.

Import Panel.

(** The handles that the class holds are handles that were handed out. *)
Definition bounded (m : Machine) : Prop :=
  (forall h, listenerTextChange m = Some h -> (h < nextHandle m)%nat) /\
  (forall this,
     currentPanel m = Some this ->
     (_panel this < nextHandle m)%nat /\
     Forall (fun d => (d < nextHandle m)%nat) (_disposables this)).

(** The text-change listener is not one of the objects of the panel. *)
Definition apart (m : Machine) : Prop :=
  forall h this,
    listenerTextChange m = Some h -> currentPanel m = Some this ->
    h <> _panel this /\ h ∉ _disposables this.

(** The editor holds one text-change listener while the live preview is
    on, the one in [listenerTextChange], and none while it is off. *)
Definition oneListener (extensionPath : jsstring) (m : Machine) : Prop :=
  if livePreview m then
    exists h,
      listenerTextChange m = Some h /\
      liveListeners (trace m) = [(h, extensionPath)]
  else liveListeners (trace m) = [].

(** The editor holds the panel in [currentPanel] and no other. *)
Definition onePanel (m : Machine) : Prop :=
  livePanels (trace m) = option_list (currentPanel m).

(** While the live preview is on, its document path is a string. *)
Definition pathSet (m : Machine) : Prop :=
  livePreview m = true ->
  exists path, livePreviewDocumentPath m = PathOf path.

Definition consistent (extensionPath : jsstring) (m : Machine) : Prop :=
  bounded m /\ apart m /\ oneListener extensionPath m /\ onePanel m
  /\ pathSet m.

(** The machine after a run, whether the run threw or not. *)
Definition after {A : Type} (c : Eff A) (m : Machine) : Machine := (c m).2.

(** A text editor for the examples. *)
Definition someEditor : Editor :=
  mkEditor (lit "C:\work\demo/wave.json") (lit "/c:/work/demo/wave.json")
    (lit "{ signal: [] }").

Definition someEnv : Env := mkEnv (Some someEditor) (fun _ parts => concat parts).

End PanelInvariant.

(** ** The courses of the command *)

Module CommandCourse.

Import Command.

(** The message of the [catch] clause and the message of the shape
    check. *)
Definition failed : event :=
  ShowErrorMessage
    (lit "An error occurred while generating ASCII Art. "
       ++ lit "See console for details.").

Definition invalid : event :=
  ShowErrorMessage
    (lit "Invalid WaveDrom JSON file: Missing " ++ [quote]
       ++ lit "signal" ++ [quote] ++ lit " array.").

Definition caught (x : exn) : list event :=
  [ConsoleError (lit "Error generating ASCII Art:") x; failed].

(** Every way a run can go, with the calls it makes. *)
Inductive course (host : Host) : list event -> Prop :=
| dialog_raised x :
    showOpenDialog host = Raised x ->
    course host (caught x)
| nothing_selected fileUri :
    showOpenDialog host = Returned fileUri ->
    fileUri = None \/ fileUri = Some [] ->
    course host [ShowWarningMessage (lit "No file selected.")]
| read_raised filePath others x :
    showOpenDialog host = Returned (Some (filePath :: others)) ->
    readFileSync host filePath = Raised x ->
    course host (caught x)
| parse_raised filePath others fileContent x :
    showOpenDialog host = Returned (Some (filePath :: others)) ->
    readFileSync host filePath = Returned fileContent ->
    JSON_parse host fileContent = Raised x ->
    course host (caught x)
| no_signal_array filePath others fileContent parsed :
    showOpenDialog host = Returned (Some (filePath :: others)) ->
    readFileSync host filePath = Returned fileContent ->
    JSON_parse host fileContent = Returned parsed ->
    parsed = Falsy \/ parsed = Truthy NotAnArray ->
    course host [invalid]
| render_raised filePath others fileContent signals e :
    showOpenDialog host = Returned (Some (filePath :: others)) ->
    readFileSync host filePath = Returned fileContent ->
    JSON_parse host fileContent = Returned (Truthy (SignalArray signals)) ->
    generateAsciiArt signals = Throw e ->
    course host (caught (FromRenderer e))
| open_raised filePath others fileContent signals content x :
    showOpenDialog host = Returned (Some (filePath :: others)) ->
    readFileSync host filePath = Returned fileContent ->
    JSON_parse host fileContent = Returned (Truthy (SignalArray signals)) ->
    generateAsciiArt signals = Normal content ->
    openTextDocument host content = Raised x ->
    course host (OpenTextDocument content (lit "plaintext") :: caught x)
| show_raised filePath others fileContent signals content document x :
    showOpenDialog host = Returned (Some (filePath :: others)) ->
    readFileSync host filePath = Returned fileContent ->
    JSON_parse host fileContent = Returned (Truthy (SignalArray signals)) ->
    generateAsciiArt signals = Normal content ->
    openTextDocument host content = Returned document ->
    showTextDocument host document = Raised x ->
    course host
      (OpenTextDocument content (lit "plaintext")
         :: ShowTextDocument document :: caught x)
| shown filePath others fileContent signals content document :
    showOpenDialog host = Returned (Some (filePath :: others)) ->
    readFileSync host filePath = Returned fileContent ->
    JSON_parse host fileContent = Returned (Truthy (SignalArray signals)) ->
    generateAsciiArt signals = Normal content ->
    openTextDocument host content = Returned document ->
    showTextDocument host document = Returned () ->
    course host
      [OpenTextDocument content (lit "plaintext"); ShowTextDocument document].

End CommandCourse.

(** ** Sanity checks on concrete inputs *)

(** The scenario of the specification. *)
Example scenario :
  generateAsciiArt
    [ mkSignal (Str (lit "clk")) (Str (lit "P.")) None;
      mkSignal (Str (lit "Data")) (Str (lit "01x")) None ]
  = Normal
      (lit "clk       : |" ++ [overline; overline; overline; overline]
         ++ lit "|    " ++ [newline]
         ++ lit "Data      : ____" ++ [overline; overline; overline; overline]
         ++ lit "xxxx" ++ [newline]).
Proof. vm_compute. reflexivity. Qed.

Example glyph_pulse : length (glyph (lit "P")) = 6%nat.
Proof. reflexivity. Qed.

Example glyph_unknown : glyph (lit "p") = lit "????".
Proof. reflexivity. Qed.

Example padEnd_default : padEnd (Str (lit "ab")) 5 None = Normal (lit "ab   ").
Proof. reflexivity. Qed.

Example padEnd_two_fill :
  padEnd (Str (lit "ab")) 5 (Some (lit "xy")) = Normal (lit "abxyxyxy").
Proof. reflexivity. Qed.

Example padEnd_undefined : padEnd Undefined 10 None = Throw TypeError.
Proof. reflexivity. Qed.

(** ** The padding helper *)

Section PadEnd.

Implicit Types (s c : jsstring) (n : Z) (padChar : option jsstring).

Lemma repeat_Normal c k :
  0 <= k -> repeat c k = Normal (concat (replicate (Z.to_nat k) c)).
Proof.
  intros Hk. unfold repeat.
  rewrite bool_decide_eq_false_2; [reflexivity | lia].
Qed.

Lemma concat_replicate_single {A} (x : A) k :
  concat (replicate k [x]) = replicate k x.
Proof. induction k as [|k IH]; simpl; [|rewrite IH]; reflexivity. Qed.

Lemma length_concat_replicate {A} (l : list A) k :
  length (concat (replicate k l)) = (k * length l)%nat.
Proof.
  induction k as [|k IH]; simpl; [reflexivity|].
  rewrite length_app, IH. reflexivity.
Qed.

Lemma padEnd_long s n padChar :
  strlen s >= n -> padEnd (Str s) n padChar = Normal s.
Proof.
  intros Hlen. unfold padEnd. simpl.
  rewrite bool_decide_eq_true_2 by assumption. reflexivity.
Qed.

Lemma padEnd_short s n padChar :
  strlen s < n ->
  padEnd (Str s) n padChar
  = Normal (s ++ concat (replicate (Z.to_nat (n - strlen s))
                           (default (lit " ") padChar))).
Proof.
  intros Hlen. unfold padEnd. simpl.
  rewrite bool_decide_eq_false_2 by lia.
  rewrite repeat_Normal by lia. reflexivity.
Qed.

(** Leaving the third argument out pads with spaces. *)
Lemma padEnd_default_space s n :
  padEnd (Str s) n None = padEnd (Str s) n (Some [space]).
Proof. reflexivity. Qed.


(** C8: [padEnd] returns a string that already has the target width
    unchanged, whatever the fill; a shorter string comes back followed by
    copies of the fill character and nothing else, as many as were
    missing. *)
Theorem padEnd_left_aligned s n (c : code_unit) :
  (strlen s >= n -> padEnd (Str s) n (Some [c]) = Normal s) /\
  (strlen s < n ->
     padEnd (Str s) n (Some [c])
     = Normal (s ++ replicate (Z.to_nat (n - strlen s)) c)).
Proof.
  split; intros Hlen.
  - apply padEnd_long, Hlen.
  - rewrite padEnd_short by assumption. cbv [default from_option id].
    rewrite concat_replicate_single. reflexivity.
Qed.

Lemma padEnd_left_aligned_witness :
  padEnd (Str (lit "abcdef")) 3 (Some [chr "-"]) = Normal (lit "abcdef") /\
  padEnd (Str (lit "ab")) 5 (Some [chr "-"]) = Normal (lit "ab---").
Proof.
  split.
  - apply (proj1 (padEnd_left_aligned (lit "abcdef") 3 (chr "-"))).
    vm_compute. discriminate.
  - apply (proj2 (padEnd_left_aligned (lit "ab") 5 (chr "-"))).
    reflexivity.
Defined.

(** C10: below the target width the result has length
    [s.length + c.length * (n - s.length)]: exactly [n] if and only if the
    fill is one character long, and more than [n] for a longer fill. *)
Theorem padEnd_length s n c :
  strlen s < n ->
  exists r,
    padEnd (Str s) n (Some c) = Normal r /\
    strlen r = strlen s + strlen c * (n - strlen s) /\
    (strlen r = n <-> strlen c = 1) /\
    (1 < strlen c -> n < strlen r).
Proof.
  intros Hlen. eexists. split; [apply padEnd_short, Hlen|].
  assert (Hr : strlen (s ++ concat (replicate (Z.to_nat (n - strlen s)) c))
               = strlen s + strlen c * (n - strlen s)).
  { unfold strlen. rewrite length_app, length_concat_replicate.
    rewrite Nat2Z.inj_add, Nat2Z.inj_mul, Z2Nat.id; unfold strlen in *; lia. }
  cbv [default from_option id]. rewrite Hr. split; [reflexivity|]. split; [split|]; nia.
Qed.

Lemma padEnd_length_witness :
  exists r,
    padEnd (Str (lit "ab")) 5 (Some (lit "xy")) = Normal r /\
    strlen r = strlen (lit "ab") + strlen (lit "xy") * (5 - strlen (lit "ab")) /\
    (strlen r = 5 <-> strlen (lit "xy") = 1) /\
    (1 < strlen (lit "xy") -> 5 < strlen r).
Proof. apply (padEnd_length (lit "ab") 5 (lit "xy")). reflexivity. Defined.

End PadEnd.

(** ** The token table *)

Section TokenTable.

Implicit Types (c : code_unit) (w : jsstring).

Lemma waveMapping_other c :
  ~ recognized c -> waveMapping !! [c] = None.
Proof.
  unfold recognized. intros Hc.
  unfold waveMapping. cbn [list_to_map foldr uncurry].
  repeat (rewrite lookup_insert_ne; [|intros [= <-]; tauto]).
  apply lookup_empty.
Qed.

(** The lookup with fallback is the table of the specification. *)
Lemma glyph_tokenRun c : glyph [c] = tokenRun c.
Proof.
  unfold tokenRun.
  repeat (case_decide; [subst c; reflexivity|]).
  unfold glyph. rewrite waveMapping_other; [reflexivity|].
  unfold recognized. tauto.
Qed.

Lemma length_tokenRun c : length (tokenRun c) = runWidth c.
Proof.
  unfold tokenRun, runWidth.
  repeat (case_decide; [reflexivity|]). reflexivity.
Qed.

Lemma glyph_split_empty w :
  join_empty (glyph <$> split_empty w) = concat (tokenRun <$> w).
Proof.
  unfold join_empty, split_empty. rewrite <- list_fmap_compose.
  f_equal. apply list_fmap_ext. intros _ c _. apply glyph_tokenRun.
Qed.

Lemma length_concat_tokenRun w :
  length (concat (tokenRun <$> w)) = sum_list (runWidth <$> w).
Proof.
  induction w as [|c w IH]; [reflexivity|].
  cbn [fmap list_fmap concat sum_list sum_list_with].
  rewrite length_app, length_tokenRun.
  change (list_fmap _ _ tokenRun w) with (tokenRun <$> w). rewrite IH.
  reflexivity.
Qed.

End TokenTable.

(** ** The renderer, one signal at a time *)

Section Lines.

Implicit Types (signal : Signal) (signals : list Signal).
Implicit Types (n w acc line : jsstring).

Lemma labelField_Str signal n :
  name signal = Str n ->
  labelField signal
  = Normal ((if bool_decide (strlen n >= 10) then n
             else n ++ replicate (Z.to_nat (10 - strlen n)) space)
            ++ lit ": ").
Proof.
  intros Hn. unfold labelField. rewrite Hn. case_bool_decide as Hlen.
  - rewrite padEnd_long by assumption. reflexivity.
  - rewrite padEnd_short by lia. cbv [default from_option].
    change (lit " ") with [space].
    rewrite concat_replicate_single. reflexivity.
Qed.

Lemma labelField_Undefined signal :
  name signal = Undefined -> labelField signal = Throw TypeError.
Proof. intros Hn. unfold labelField. rewrite Hn. reflexivity. Qed.

Lemma waveField_Str signal w :
  wave signal = Str w ->
  waveField signal = Normal (concat (tokenRun <$> w)).
Proof.
  intros Hw. unfold waveField. rewrite Hw. simpl.
  rewrite glyph_split_empty. reflexivity.
Qed.

Lemma waveField_Undefined signal :
  wave signal = Undefined -> waveField signal = Throw TypeError.
Proof. intros Hw. unfold waveField. rewrite Hw. reflexivity. Qed.

(** A line is its label field, its wave field and a line feed. *)
Lemma signalLine_fields signal :
  signalLine signal
  = (label ← labelField signal;
     wave ← waveField signal;
     mret (label ++ wave ++ [newline])).
Proof. reflexivity. Qed.

Lemma wellFormed_or_missing signal :
  wellFormed signal \/ missingField signal.
Proof.
  unfold wellFormed, missingField.
  destruct (name signal), (wave signal); eauto.
Qed.

Lemma wellFormed_not_missing signal :
  wellFormed signal -> ~ missingField signal.
Proof.
  intros [[n Hn] [w Hw]] [H|H]; congruence.
Qed.

Lemma signalLine_wellFormed signal :
  wellFormed signal -> exists line, signalLine signal = Normal line.
Proof.
  intros [[n Hn] [w Hw]]. rewrite signalLine_fields.
  rewrite (labelField_Str _ _ Hn), (waveField_Str _ _ Hw).
  eexists. reflexivity.
Qed.

Lemma signalLine_missing signal :
  missingField signal -> signalLine signal = Throw TypeError.
Proof.
  intros Hm. rewrite signalLine_fields.
  destruct (name signal) as [|n] eqn:Hn.
  - rewrite labelField_Undefined by assumption. reflexivity.
  - destruct Hm as [Hm|Hm]; [congruence|].
    rewrite (labelField_Str _ _ Hn), waveField_Undefined by assumption.
    reflexivity.
Qed.

(** The accumulator is only ever extended. *)
Lemma loopBody_signalLine acc signal :
  loopBody acc signal = (fun line => acc ++ line) <$> signalLine signal.
Proof.
  unfold signalLine, loopBody.
  destruct (labelField signal) as [label|e]; [|reflexivity].
  destruct (waveField signal) as [wave|e]; [|reflexivity].
  simpl. rewrite <- app_assoc. reflexivity.
Qed.

Lemma for_of_outputLines signals acc :
  for_of loopBody signals acc
  = (fun lines => acc ++ concat lines) <$> outputLines signals.
Proof.
  revert acc. induction signals as [|signal rest IH]; intros acc.
  - simpl. rewrite app_nil_r. reflexivity.
  - cbn [for_of outputLines]. rewrite loopBody_signalLine.
    destruct (signalLine signal) as [line|e]; [|reflexivity].
    simpl. rewrite IH.
    destruct (outputLines rest) as [lines|e]; [|reflexivity].
    simpl. rewrite app_assoc. reflexivity.
Qed.

(** The output is the lines of the signals, one after the other. *)
Lemma generateAsciiArt_outputLines signals :
  generateAsciiArt signals = join_empty <$> outputLines signals.
Proof. unfold generateAsciiArt. apply for_of_outputLines. Qed.

Lemma outputLines_wellFormed signals :
  Forall wellFormed signals ->
  exists lines,
    outputLines signals = Normal lines /\
    Forall2 (fun signal line => signalLine signal = Normal line)
      signals lines.
Proof.
  induction 1 as [|signal rest Hwf _ (lines & Hlines & Hall)].
  - exists []. split; [reflexivity | constructor].
  - destruct (signalLine_wellFormed _ Hwf) as [line Hline].
    exists (line :: lines). cbn [outputLines]. rewrite Hline, Hlines.
    split; [reflexivity | constructor; assumption].
Qed.

Lemma outputLines_missing signals :
  Exists missingField signals -> outputLines signals = Throw TypeError.
Proof.
  induction 1 as [signal rest Hm|signal rest _ IH]; cbn [outputLines].
  - rewrite signalLine_missing by assumption. reflexivity.
  - rewrite IH.
    destruct (wellFormed_or_missing signal) as [Hwf|Hm].
    + destruct (signalLine_wellFormed _ Hwf) as [line ->]. reflexivity.
    + rewrite signalLine_missing by assumption. reflexivity.
Qed.

Lemma all_wellFormed_or_missing signals :
  Forall wellFormed signals \/ Exists missingField signals.
Proof.
  induction signals as [|signal rest [IH|IH]].
  - left. constructor.
  - destruct (wellFormed_or_missing signal); [left|right]; constructor;
      assumption.
  - right. apply Exists_cons_tl, IH.
Qed.

Lemma generateAsciiArt_wellFormed signals :
  Forall wellFormed signals ->
  exists text, generateAsciiArt signals = Normal text.
Proof.
  intros Hall. rewrite generateAsciiArt_outputLines.
  destruct (outputLines_wellFormed _ Hall) as (lines & -> & _).
  eexists. reflexivity.
Qed.

Lemma generateAsciiArt_missing signals :
  Exists missingField signals -> generateAsciiArt signals = Throw TypeError.
Proof.
  intros Hex. rewrite generateAsciiArt_outputLines.
  rewrite outputLines_missing by assumption. reflexivity.
Qed.

End Lines.

(** ** Missing fields *)

Section MissingFields.

Implicit Types (signal : Signal) (signals : list Signal).

(** C1, as the specification has it, fails: a signal without [wave]
    makes the renderer throw, where reading the absent field as the empty
    string would give a line. *)
Lemma absent_wave_throws :
  generateAsciiArt [mkSignal (Str (lit "clk")) Undefined None]
  = Throw TypeError /\
  generateAsciiArt [absentAsEmpty (mkSignal (Str (lit "clk")) Undefined None)]
  = Normal (lit "clk       : " ++ [newline]) /\
  generateAsciiArt [mkSignal (Str (lit "clk")) Undefined None]
  <> generateAsciiArt
       [absentAsEmpty (mkSignal (Str (lit "clk")) Undefined None)].
Proof. split; [reflexivity|]. split; [reflexivity | discriminate]. Qed.

(** C1, amended: the renderer returns a text exactly when every signal
    has both fields, and throws a [TypeError] exactly when some signal
    lacks one; whatever the characters of a wave, they never make it
    throw, and each character outside the table contributes the
    placeholder. *)
Theorem generateAsciiArt_completion signals :
  (Forall wellFormed signals <->
     exists text, generateAsciiArt signals = Normal text) /\
  (Exists missingField signals <->
     generateAsciiArt signals = Throw TypeError) /\
  (forall signal w,
     wave signal = Str w ->
     exists runs,
       waveField signal = Normal (concat runs) /\
       Forall2 (fun c run => ~ recognized c -> run = lit "????") w runs).
Proof.
  split; [|split].
  - split; [apply generateAsciiArt_wellFormed|].
    intros [text Htext].
    destruct (all_wellFormed_or_missing signals) as [Hall|Hex]; [done|].
    rewrite generateAsciiArt_missing in Htext by assumption. discriminate.
  - split; [apply generateAsciiArt_missing|].
    intros Hthrow.
    destruct (all_wellFormed_or_missing signals) as [Hall|Hex]; [|done].
    destruct (generateAsciiArt_wellFormed _ Hall) as [text Htext].
    congruence.
  - intros signal w Hw. exists (tokenRun <$> w).
    split; [apply waveField_Str, Hw|].
    apply Forall2_fmap_r, Forall_Forall2_diag, Forall_forall.
    intros c _ Hc. unfold tokenRun, recognized in *.
    repeat (case_decide; [tauto|]). reflexivity.
Qed.

Lemma generateAsciiArt_completion_witness :
  exists text,
    generateAsciiArt
      [mkSignal (Str (lit "clk")) (Str (lit "P.q")) (Some [lit "a"])]
    = Normal text.
Proof.
  apply (proj1 (generateAsciiArt_completion _)).
  repeat constructor; eexists; reflexivity.
Defined.

(** C4, as the specification has it, fails: with both fields missing
    there is no line at all. *)
Lemma both_missing_no_line :
  generateAsciiArt [mkSignal Undefined Undefined None]
  <> Normal (replicate 10 space ++ lit ": " ++ [newline]).
Proof. discriminate. Qed.

(** C4, amended: a signal with both fields missing makes the renderer
    throw a [TypeError], wherever it stands in the list; with both fields
    the empty string it gives 10 spaces, the separator and one line
    feed. *)
Theorem both_missing_throws signal :
  name signal = Undefined -> wave signal = Undefined ->
  (forall before after,
     generateAsciiArt (before ++ signal :: after) = Throw TypeError) /\
  generateAsciiArt [absentAsEmpty signal]
  = Normal (replicate 10 space ++ lit ": " ++ [newline]).
Proof.
  intros Hn Hw. split.
  - intros before after. apply generateAsciiArt_missing.
    apply Exists_app. right. apply Exists_cons_hd. left. exact Hn.
  - unfold absentAsEmpty. rewrite Hn, Hw. reflexivity.
Qed.

Lemma both_missing_throws_witness :
  (forall before after,
     generateAsciiArt (before ++ mkSignal Undefined Undefined None :: after)
     = Throw TypeError) /\
  generateAsciiArt [absentAsEmpty (mkSignal Undefined Undefined None)]
  = Normal (replicate 10 space ++ lit ": " ++ [newline]).
Proof.
  apply (both_missing_throws (mkSignal Undefined Undefined None));
    reflexivity.
Defined.

End MissingFields.

(** ** The two fields of a line *)

Section Fields.

Implicit Types (signal : Signal) (n w : jsstring).

(** C2: the wave field is the runs of the wave's characters, in order
    and with nothing in between, each run taken from the token table of
    the specification, placeholder included; it stands in the line
    between the label field and the line feed. *)
Theorem waveField_tokenRuns signal w :
  wave signal = Str w ->
  waveField signal = Normal (concat (tokenRun <$> w)) /\
  (forall label,
     labelField signal = Normal label ->
     signalLine signal
     = Normal (label ++ concat (tokenRun <$> w) ++ [newline])).
Proof.
  intros Hw. pose proof (waveField_Str _ _ Hw) as Hfield.
  split; [exact Hfield|].
  intros label Hlabel. rewrite signalLine_fields, Hlabel, Hfield.
  reflexivity.
Qed.

Lemma waveField_tokenRuns_witness :
  waveField (mkSignal (Str (lit "Data")) (Str (lit "P0q")) None)
  = Normal (concat (tokenRun <$> lit "P0q")) /\
  (forall label,
     labelField (mkSignal (Str (lit "Data")) (Str (lit "P0q")) None)
     = Normal label ->
     signalLine (mkSignal (Str (lit "Data")) (Str (lit "P0q")) None)
     = Normal (label ++ concat (tokenRun <$> lit "P0q") ++ [newline])).
Proof.
  apply (waveField_tokenRuns
           (mkSignal (Str (lit "Data")) (Str (lit "P0q")) None)).
  reflexivity.
Defined.

(** C3: the label field is the name and the separator [": "]; a name
    shorter than 10 is first followed by spaces up to length 10, a name
    of length 10 or more is left as it is.  The label field opens the
    line. *)
Theorem labelField_padded signal n :
  name signal = Str n ->
  exists label,
    labelField signal = Normal (label ++ lit ": ") /\
    ((length n < 10)%nat ->
       label = n ++ replicate (10 - length n) space /\
       length label = 10%nat) /\
    ((10 <= length n)%nat -> label = n) /\
    (forall field,
       waveField signal = Normal field ->
       signalLine signal
       = Normal ((label ++ lit ": ") ++ field ++ [newline])).
Proof.
  intros Hn. pose proof (labelField_Str _ _ Hn) as Hlabel.
  eexists. split; [exact Hlabel|]. unfold strlen.
  split; [|split].
  - intros Hlen. rewrite bool_decide_eq_false_2 by lia.
    replace (Z.to_nat (10 - Z.of_nat (length n)))
      with (10 - length n)%nat by lia.
    split; [reflexivity|].
    rewrite length_app, length_replicate. lia.
  - intros Hlen. rewrite bool_decide_eq_true_2 by lia. reflexivity.
  - intros field Hfield.
    rewrite signalLine_fields, Hlabel, Hfield. reflexivity.
Qed.

Lemma labelField_padded_witness :
  exists label,
    labelField (mkSignal (Str (lit "clk")) (Str (lit "P.")) None)
    = Normal (label ++ lit ": ") /\
    ((length (lit "clk") < 10)%nat ->
       label = lit "clk" ++ replicate (10 - length (lit "clk")) space /\
       length label = 10%nat) /\
    ((10 <= length (lit "clk"))%nat -> label = lit "clk") /\
    (forall field,
       waveField (mkSignal (Str (lit "clk")) (Str (lit "P.")) None)
       = Normal field ->
       signalLine (mkSignal (Str (lit "clk")) (Str (lit "P.")) None)
       = Normal ((label ++ lit ": ") ++ field ++ [newline])).
Proof.
  apply (labelField_padded
           (mkSignal (Str (lit "clk")) (Str (lit "P.")) None)).
  reflexivity.
Defined.

(** The width of the wave field, whatever the characters. *)
Lemma waveField_length_any signal w :
  wave signal = Str w ->
  exists field,
    waveField signal = Normal field /\
    length field = sum_list (runWidth <$> w).
Proof.
  intros Hw. eexists. split; [apply waveField_Str, Hw|].
  apply length_concat_tokenRun.
Qed.

(** C5: for a wave of recognized tokens the length of the wave field is
    the sum of the run widths, 6 for ['P'] and 4 for the others. *)
Theorem waveField_length signal w :
  wave signal = Str w ->
  Forall recognized w ->
  exists field,
    waveField signal = Normal field /\
    length field = sum_list (runWidth <$> w).
Proof. intros Hw _. apply waveField_length_any, Hw. Qed.

Lemma waveField_length_witness :
  exists field,
    waveField (mkSignal (Str (lit "clk")) (Str (lit "P.01x=")) None)
    = Normal field /\
    length field = sum_list (runWidth <$> lit "P.01x=").
Proof.
  apply (waveField_length
           (mkSignal (Str (lit "clk")) (Str (lit "P.01x=")) None)).
  - reflexivity.
  - unfold recognized. repeat constructor; tauto.
Defined.

End Fields.

(** ** Rearranging lists *)

Section Reorder.

Context {A B : Type}.
Implicit Types (l pre : list A) (idx : list nat).

Lemma reorder_fmap (f : A -> B) idx l :
  reorder idx (f <$> l) = f <$> reorder idx l.
Proof.
  unfold reorder. induction idx as [|i idx IH]; [reflexivity|].
  cbn [omap list_omap]. rewrite list_lookup_fmap.
  destruct (l !! i) as [x|]; simpl; [f_equal|]; exact IH.
Qed.

Lemma reorder_seq_from pre l :
  reorder (seq (length pre) (length l)) (pre ++ l) = l.
Proof.
  unfold reorder. revert pre. induction l as [|x l IH]; intros pre.
  - reflexivity.
  - cbn [length seq omap list_omap]. rewrite list_lookup_middle by done.
    f_equal. specialize (IH (pre ++ [x])).
    rewrite length_app, <- app_assoc in IH. simpl in IH.
    rewrite Nat.add_1_r in IH. exact IH.
Qed.

(** The positions in order leave the list as it is. *)
Lemma reorder_seq l : reorder (seq 0 (length l)) l = l.
Proof. apply (reorder_seq_from [] l). Qed.

(** Along a permutation of the positions the result is a permutation
    of the list. *)
Lemma reorder_Permutation idx l :
  idx ≡ₚ seq 0 (length l) -> reorder idx l ≡ₚ l.
Proof.
  intros Hidx. unfold reorder. rewrite Hidx. fold (reorder (seq 0 (length l)) l).
  rewrite reorder_seq. reflexivity.
Qed.

End Reorder.

(** ** The output as a whole *)

Section Output.

Implicit Types (signal : Signal) (signals : list Signal).

Lemma sameNameWave_signalLine a b :
  sameNameWave a b -> signalLine a = signalLine b.
Proof.
  intros [Hn Hw]. rewrite !signalLine_fields.
  unfold labelField, waveField. rewrite Hn, Hw. reflexivity.
Qed.

Lemma sameNameWave_outputLines signals1 signals2 :
  Forall2 sameNameWave signals1 signals2 ->
  outputLines signals1 = outputLines signals2.
Proof.
  induction 1 as [|a b rest1 rest2 Hab _ IH]; [reflexivity|].
  cbn [outputLines]. rewrite (sameNameWave_signalLine _ _ Hab), IH.
  reflexivity.
Qed.

(** C6: two lists of signals with the same names and waves, position by
    position, give the same result whatever their [data]; in particular
    the result with [data] is the result without it, so no error comes
    from [data] being there. *)
Theorem data_ignored signals1 signals2 :
  Forall2 sameNameWave signals1 signals2 ->
  generateAsciiArt signals1 = generateAsciiArt signals2 /\
  generateAsciiArt signals1 = generateAsciiArt (withoutData <$> signals1).
Proof.
  intros Hsame. rewrite !generateAsciiArt_outputLines. split.
  - rewrite (sameNameWave_outputLines _ _ Hsame). reflexivity.
  - f_equal. apply sameNameWave_outputLines.
    apply Forall2_fmap_r, Forall_Forall2_diag, Forall_forall.
    intros signal _. split; reflexivity.
Qed.

Lemma data_ignored_witness :
  generateAsciiArt
    [mkSignal (Str (lit "Data")) (Str (lit "x=.x")) (Some [lit "head"])]
  = generateAsciiArt
    [mkSignal (Str (lit "Data")) (Str (lit "x=.x")) None] /\
  generateAsciiArt
    [mkSignal (Str (lit "Data")) (Str (lit "x=.x")) (Some [lit "head"])]
  = generateAsciiArt
      (withoutData <$>
         [mkSignal (Str (lit "Data")) (Str (lit "x=.x"))
            (Some [lit "head"])]).
Proof.
  apply data_ignored. repeat constructor.
Defined.

(** C9: no signal, no line: the output is the empty string. *)
Theorem generateAsciiArt_nil :
  generateAsciiArt [] = Normal [] /\ outputLines [] = Normal [].
Proof. split; reflexivity. Qed.

Lemma signalLine_lineText signal :
  wellFormed signal -> signalLine signal = Normal (lineText signal).
Proof.
  intros Hwf. destruct (signalLine_wellFormed _ Hwf) as [line Hline].
  unfold lineText. rewrite Hline. reflexivity.
Qed.

Lemma outputLines_lineText signals :
  Forall wellFormed signals ->
  outputLines signals = Normal (lineText <$> signals).
Proof.
  induction 1 as [|signal rest Hwf _ IH]; [reflexivity|].
  cbn [outputLines]. rewrite (signalLine_lineText _ Hwf), IH.
  reflexivity.
Qed.

Lemma outputLines_Normal signals lines :
  outputLines signals = Normal lines ->
  Forall2 (fun signal line => signalLine signal = Normal line)
    signals lines.
Proof.
  revert lines. induction signals as [|signal rest IH]; intros lines.
  - intros [= <-]. constructor.
  - cbn [outputLines].
    destruct (signalLine signal) as [line|e] eqn:Hline; [|discriminate].
    destruct (outputLines rest) as [lines'|e]; [|discriminate].
    intros [= <-]. constructor; [exact Hline | apply IH; reflexivity].
Qed.

(** C7: the result is a function of the list of signals alone; it is
    the lines of the signals one after the other, each line a function
    of its signal alone; and rearranging the signals along a permutation
    of the positions rearranges the lines along the same permutation. *)
Theorem outputLines_reorder signals idx :
  idx ≡ₚ seq 0 (length signals) ->
  (forall signals',
     signals' = signals ->
     generateAsciiArt signals' = generateAsciiArt signals) /\
  generateAsciiArt signals = join_empty <$> outputLines signals /\
  (forall lines,
     outputLines signals = Normal lines ->
     Forall2 (fun signal line => signalLine signal = Normal line)
       signals lines) /\
  outputLines (reorder idx signals) = reorder idx <$> outputLines signals.
Proof.
  intros Hidx. split; [intros ? ->; reflexivity|].
  split; [apply generateAsciiArt_outputLines|].
  split; [apply outputLines_Normal|].
  pose proof (reorder_Permutation _ _ Hidx) as Hperm.
  destruct (all_wellFormed_or_missing signals) as [Hall|Hex].
  - rewrite (outputLines_lineText _ Hall).
    rewrite outputLines_lineText by (rewrite Hperm; exact Hall).
    simpl. rewrite reorder_fmap. reflexivity.
  - rewrite (outputLines_missing _ Hex).
    rewrite outputLines_missing by (rewrite Hperm; exact Hex).
    reflexivity.
Qed.

Lemma outputLines_reorder_witness :
  outputLines
    (reorder [1; 0]%nat
       [ mkSignal (Str (lit "clk")) (Str (lit "P.")) None;
         mkSignal (Str (lit "Data")) (Str (lit "01x")) None ])
  = reorder [1; 0]%nat <$>
      outputLines
        [ mkSignal (Str (lit "clk")) (Str (lit "P.")) None;
          mkSignal (Str (lit "Data")) (Str (lit "01x")) None ].
Proof.
  apply (outputLines_reorder
           [ mkSignal (Str (lit "clk")) (Str (lit "P.")) None;
             mkSignal (Str (lit "Data")) (Str (lit "01x")) None ]
           [1; 0]%nat).
  apply perm_swap.
Defined.

End Output.


(** ** Lines of the signals and lines of the text *)

Section TextLines.

Implicit Types (signal : Signal) (signals : list Signal).
Implicit Types (acc body rest n w : jsstring).

Lemma cutLines_line acc body rest :
  newline ∉ body ->
  cutLines acc (body ++ newline :: rest)
  = (acc ++ body ++ [newline]) :: cutLines [] rest.
Proof.
  revert acc. induction body as [|u body IH]; intros acc Hbody.
  - cbn [app cutLines]. rewrite decide_True by reflexivity. reflexivity.
  - apply not_elem_of_cons in Hbody as [Hu Hbody].
    cbn [app cutLines]. rewrite decide_False by congruence.
    rewrite IH by assumption. rewrite <- app_assoc. reflexivity.
Qed.

Lemma cutLines_concat (lines : list jsstring) :
  Forall (fun line => exists body, line = body ++ [newline] /\ newline ∉ body)
    lines ->
  cutLines [] (concat lines) = lines.
Proof.
  induction 1 as [|line lines (body & -> & Hbody) _ IH]; [reflexivity|].
  cbn [concat]. rewrite <- app_assoc. cbn [app].
  rewrite cutLines_line by assumption. rewrite IH. reflexivity.
Qed.

Lemma newline_tokenRun c : newline ∉ tokenRun c.
Proof.
  unfold tokenRun.
  repeat case_decide; apply (bool_decide_unpack _); reflexivity.
Qed.

Lemma newline_tokenRuns w : newline ∉ concat (tokenRun <$> w).
Proof.
  induction w as [|c w IH]; [apply not_elem_of_nil|].
  cbn [fmap list_fmap concat]. apply not_elem_of_app.
  split; [apply newline_tokenRun | exact IH].
Qed.

Lemma signalLine_body signal n w :
  name signal = Str n -> wave signal = Str w -> newline ∉ n ->
  exists body, signalLine signal = Normal (body ++ [newline]) /\ newline ∉ body.
Proof.
  intros Hn Hw Hnl. rewrite signalLine_fields.
  rewrite (labelField_Str _ _ Hn), (waveField_Str _ _ Hw).
  eexists. split; [simpl; rewrite app_assoc; reflexivity|].
  rewrite !not_elem_of_app. repeat split.
  - case_bool_decide; [assumption|].
    apply not_elem_of_app. split; [assumption|].
    intros [Heq _]%elem_of_replicate. discriminate.
  - apply (bool_decide_unpack _). reflexivity.
  - apply newline_tokenRuns.
Qed.

(** When no name holds a line feed, the lines of the signals are the
    lines of the text: each signal gives one line of the output, and
    cutting the output after its line feeds gives the lines back. *)
Theorem generateAsciiArt_cutLines signals :
  Forall wellFormed signals ->
  Forall (fun signal => forall n, name signal = Str n -> newline ∉ n) signals ->
  exists text lines,
    generateAsciiArt signals = Normal text /\
    outputLines signals = Normal lines /\
    length lines = length signals /\
    cutLines [] text = lines.
Proof.
  intros Hwf Hnl.
  destruct (outputLines_wellFormed _ Hwf) as (lines & Hlines & Hall).
  exists (concat lines), lines.
  rewrite generateAsciiArt_outputLines, Hlines.
  split; [reflexivity|]. split; [reflexivity|].
  split; [symmetry; eapply Forall2_length, Hall|].
  apply cutLines_concat.
  clear Hlines. induction Hall as [|signal line rest lines Hline _ IH].
  - constructor.
  - apply Forall_cons in Hwf as [[[n Hn] [w Hw]] Hwf].
    apply Forall_cons in Hnl as [Hnl1 Hnl].
    constructor; [|apply IH; assumption].
    destruct (signalLine_body _ _ _ Hn Hw (Hnl1 _ Hn)) as (body & Hbody & ?).
    exists body. split; [congruence | assumption].
Qed.

End TextLines.


(** ** More on the padding helper and the renderer *)

Section MoreRendering.

Implicit Types (signal : Signal) (signals : list Signal).
Implicit Types (s c r n w : jsstring) (padChar : option jsstring).


(** Padding what is padded changes nothing, whatever the fill. *)
Theorem padEnd_idempotent s (targetLength : Z) padChar r :
  padEnd (Str s) targetLength padChar = Normal r ->
  padEnd (Str r) targetLength padChar = Normal r.
Proof.
  destruct (decide (strlen s >= targetLength)) as [Hge|Hlt].
  - rewrite padEnd_long by assumption. intros [= <-].
    apply padEnd_long, Hge.
  - rewrite padEnd_short by lia. intros [= <-].
    set (k := Z.to_nat (targetLength - strlen s)).
    set (fill := default (lit " ") padChar).
    destruct fill as [|u fill'] eqn:Hfill.
    + replace (concat (replicate k [])) with (@nil code_unit)
        by (induction k; [reflexivity | assumption]).
      rewrite app_nil_r, padEnd_short by lia.
      fold fill. rewrite Hfill. fold k.
      replace (concat (replicate k [])) with (@nil code_unit)
        by (induction k; [reflexivity | assumption]).
      rewrite app_nil_r. reflexivity.
    + apply padEnd_long. unfold strlen in *.
      rewrite length_app, length_concat_replicate. cbn [length].
      subst k. nia.
Qed.

Lemma padEnd_idempotent_witness :
  padEnd (Str (lit "ab--")) 4 (Some (lit "-")) = Normal (lit "ab--").
Proof.
  apply (padEnd_idempotent (lit "ab") 4 (Some (lit "-")) (lit "ab--")).
  reflexivity.
Defined.

Lemma outputLines_app signals1 signals2 :
  outputLines (signals1 ++ signals2)
  = (lines1 ← outputLines signals1;
     lines2 ← outputLines signals2;
     mret (lines1 ++ lines2)).
Proof.
  induction signals1 as [|signal rest IH].
  - cbn. destruct (outputLines signals2); reflexivity.
  - cbn [app outputLines]. rewrite IH.
    destruct (signalLine signal) as [line|e]; [|reflexivity].
    destruct (outputLines rest) as [lines1|e1]; [|reflexivity].
    destruct (outputLines signals2) as [lines2|e2]; reflexivity.
Qed.

(** Rendering one list after another is rendering them apiece: the
    texts follow each other, and the first error is the error. *)
Theorem generateAsciiArt_app signals1 signals2 :
  generateAsciiArt (signals1 ++ signals2)
  = (text1 ← generateAsciiArt signals1;
     text2 ← generateAsciiArt signals2;
     mret (text1 ++ text2)).
Proof.
  rewrite !generateAsciiArt_outputLines, outputLines_app.
  destruct (outputLines signals1) as [lines1|e1]; [|reflexivity].
  destruct (outputLines signals2) as [lines2|e2]; [|reflexivity].
  cbn. unfold join_empty. rewrite concat_app. reflexivity.
Qed.

Lemma lineText_length signal :
  wellFormed signal -> length (lineText signal) = lineWidth signal.
Proof.
  intros [[n Hn] [w Hw]]. unfold lineText, lineWidth.
  rewrite signalLine_fields, (labelField_Str _ _ Hn), (waveField_Str _ _ Hw).
  rewrite Hn, Hw. cbn [mbind completion_bind mret completion_ret].
  rewrite !length_app, length_concat_tokenRun. cbn [length].
  unfold strlen. case_bool_decide.
  - change (length (lit ": ")) with 2%nat. lia.
  - rewrite length_app, length_replicate.
    change (length (lit ": ")) with 2%nat. lia.
Qed.

(** The size of the output: every signal takes the length of its name,
    or 10 when the name is shorter, 2 for the separator, the widths of its
    runs and 1 for the line feed. *)
Theorem generateAsciiArt_length signals text :
  generateAsciiArt signals = Normal text ->
  length text = sum_list (lineWidth <$> signals).
Proof.
  intros Htext.
  assert (Hwf : Forall wellFormed signals).
  { destruct (all_wellFormed_or_missing signals) as [Hall|Hex]; [done|].
    rewrite generateAsciiArt_missing in Htext by assumption. discriminate. }
  rewrite generateAsciiArt_outputLines, (outputLines_lineText _ Hwf) in Htext.
  injection Htext as <-. unfold join_empty.
  induction Hwf as [|signal rest Hsignal _ IH]; [reflexivity|].
  cbn [fmap list_fmap concat sum_list sum_list_with].
  rewrite length_app, (lineText_length _ Hsignal).
  f_equal. exact IH.
Qed.

Lemma generateAsciiArt_length_witness :
  length
    (lit "clk       : |" ++ [overline; overline; overline; overline]
       ++ lit "|    " ++ [newline])
  = sum_list
      (lineWidth <$> [mkSignal (Str (lit "clk")) (Str (lit "P.")) None]).
Proof.
  apply (generateAsciiArt_length
           [mkSignal (Str (lit "clk")) (Str (lit "P.")) None]).
  reflexivity.
Defined.

Lemma generateAsciiArt_cutLines_witness :
  exists text lines,
    generateAsciiArt
      [ mkSignal (Str (lit "clk")) (Str (lit "P.")) None;
        mkSignal (Str (lit "Data")) (Str (lit "01x")) None ]
    = Normal text /\
    outputLines
      [ mkSignal (Str (lit "clk")) (Str (lit "P.")) None;
        mkSignal (Str (lit "Data")) (Str (lit "01x")) None ]
    = Normal lines /\
    length lines = 2%nat /\
    cutLines [] text = lines.
Proof.
  apply (generateAsciiArt_cutLines
           [ mkSignal (Str (lit "clk")) (Str (lit "P.")) None;
             mkSignal (Str (lit "Data")) (Str (lit "01x")) None ]).
  - repeat constructor; eexists; reflexivity.
  - repeat constructor; intros n [= <-]; apply (bool_decide_unpack _);
      reflexivity.
Defined.

End MoreRendering.


(** ** Reading a wave back from its runs *)

Section Decoding.

Implicit Types (signal : Signal) (c : code_unit) (w r : jsstring).

Lemma tokenRun_cons c : exists u run, tokenRun c = u :: run.
Proof.
  unfold tokenRun. repeat (case_decide; [eexists _, _; reflexivity|]).
  eexists _, _. reflexivity.
Qed.

(** The runs of the six tokens start with six different characters. *)
Lemma tokenRun_app_inj c1 c2 r1 r2 :
  recognized c1 -> recognized c2 ->
  tokenRun c1 ++ r1 = tokenRun c2 ++ r2 -> c1 = c2 /\ r1 = r2.
Proof.
  unfold recognized. intros H1 H2.
  destruct_or!; subst c1 c2; cbv; intros H;
    first [ discriminate H | split; [reflexivity | congruence] ].
Qed.

Lemma tokenRuns_inj w1 w2 :
  Forall recognized w1 -> Forall recognized w2 ->
  concat (tokenRun <$> w1) = concat (tokenRun <$> w2) -> w1 = w2.
Proof.
  intros H1. revert w2.
  induction H1 as [|c1 w1 Hc1 _ IH]; intros w2 H2 Heq.
  - destruct w2 as [|c2 w2]; [reflexivity|].
    cbn in Heq. destruct (tokenRun_cons c2) as (u & run & Hrun).
    rewrite Hrun in Heq. discriminate.
  - destruct H2 as [|c2 w2 Hc2 H2].
    + cbn in Heq. destruct (tokenRun_cons c1) as (u & run & Hrun).
      rewrite Hrun in Heq. discriminate.
    + cbn [fmap list_fmap concat] in Heq.
      apply tokenRun_app_inj in Heq as [-> Heq]; [|assumption..].
      f_equal. apply IH; assumption.
Qed.

(** Over the tokens of the table the wave field tells the wave: two
    waves of recognized tokens with the same wave field are the same
    wave. *)
Theorem waveField_injective signal1 signal2 w1 w2 :
  wave signal1 = Str w1 -> wave signal2 = Str w2 ->
  Forall recognized w1 -> Forall recognized w2 ->
  waveField signal1 = waveField signal2 -> w1 = w2.
Proof.
  intros Hw1 Hw2 H1 H2.
  rewrite (waveField_Str _ _ Hw1), (waveField_Str _ _ Hw2).
  intros [= Heq]. apply tokenRuns_inj; assumption.
Qed.

Lemma waveField_injective_witness : lit "P.01" = lit "P.01".
Proof.
  apply (waveField_injective
           (mkSignal (Str (lit "a")) (Str (lit "P.01")) None)
           (mkSignal Undefined (Str (lit "P.01")) (Some []))).
  - reflexivity.
  - reflexivity.
  - unfold recognized. repeat constructor; tauto.
  - unfold recognized. repeat constructor; tauto.
  - reflexivity.
Defined.

End Decoding.

(** ** The title of the panel *)

Section Title.

Implicit Types (sep c : code_unit) (s base pre : jsstring).
Implicit Types (pieces : list jsstring) (doc : Editor).

Lemma split_on_cons sep s : exists piece pieces, split_on sep s = piece :: pieces.
Proof.
  induction s as [|u s (piece & pieces & IH)]; cbn [split_on].
  - eexists _, _. reflexivity.
  - case_decide; [eexists _, _; reflexivity|].
    rewrite IH. eexists _, _. reflexivity.
Qed.

(** Splitting loses nothing: the pieces around the separator are the
    text again. *)
Lemma join_with_split_on sep s : join_with sep (split_on sep s) = s.
Proof.
  induction s as [|u s IH]; [reflexivity|]. cbn [split_on].
  destruct (split_on_cons sep s) as (piece & pieces & Hsplit).
  rewrite Hsplit in *. case_decide as Hu.
  - subst u.
    change (join_with sep ([] :: piece :: pieces))
      with (sep :: join_with sep (piece :: pieces)).
    rewrite IH. reflexivity.
  - destruct pieces; cbn [join_with app] in *; rewrite IH; reflexivity.
Qed.

Lemma split_on_pieces sep s : Forall (fun piece => sep ∉ piece) (split_on sep s).
Proof.
  induction s as [|u s IH]; cbn [split_on].
  - repeat constructor. apply not_elem_of_nil.
  - case_decide as Hu.
    + constructor; [apply not_elem_of_nil | exact IH].
    + destruct (split_on sep s) as [|piece pieces].
      * repeat constructor. rewrite list_elem_of_singleton. congruence.
      * apply Forall_cons in IH as [Hpiece Hpieces].
        constructor; [|exact Hpieces].
        rewrite not_elem_of_cons. split; [congruence | exact Hpiece].
Qed.

Lemma join_with_last sep pieces base :
  last pieces = Some base ->
  exists pre,
    join_with sep pieces = pre ++ base /\
    (pre = [] \/ exists pre', pre = pre' ++ [sep]).
Proof.
  induction pieces as [|piece pieces IH]; [discriminate|].
  destruct pieces as [|piece' pieces].
  - intros [= ->]. exists []. split; [reflexivity | left; reflexivity].
  - intros Hlast. destruct (IH Hlast) as (pre & Hjoin & Hpre).
    exists (piece ++ sep :: pre). split.
    + change (join_with sep (piece :: piece' :: pieces))
        with (piece ++ sep :: join_with sep (piece' :: pieces)).
      rewrite Hjoin, <- app_assoc. reflexivity.
    + right. destruct Hpre as [->|[pre' ->]].
      * exists piece. reflexivity.
      * exists (piece ++ sep :: pre'). rewrite <- app_assoc. reflexivity.
Qed.

(** The last piece of a split: what follows the last separator. *)
Lemma pop_split_on sep s :
  exists pre base,
    pop (split_on sep s) = Str base /\
    s = pre ++ base /\ (sep ∉ base) /\
    (pre = [] \/ exists pre', pre = pre' ++ [sep]).
Proof.
  destruct (split_on_cons sep s) as (piece & pieces & Hsplit).
  destruct (last (split_on sep s)) as [base|] eqn:Hlast;
    [|rewrite Hsplit, last_cons in Hlast; destruct (last pieces); discriminate].
  destruct (join_with_last sep _ _ Hlast) as (pre & Hjoin & Hpre).
  rewrite join_with_split_on in Hjoin.
  exists pre, base. unfold pop. rewrite Hlast.
  repeat split; [assumption| |assumption].
  pose proof (split_on_pieces sep s) as Hall.
  rewrite Forall_forall in Hall. apply Hall.
  apply last_Some_elem_of, Hlast.
Qed.

Lemma getTitle_Normal doc : exists title, getTitle (Some doc) = Normal title.
Proof.
  unfold getTitle. cbn [document mbind completion_bind].
  destruct (pop_split_on backslash (fileName doc)) as (pre & tail & -> & _).
  cbn [receiver mbind completion_bind]. eexists. reflexivity.
Qed.

(** With a text editor in front, the title is "Waveform Render: " and the
    file name from its last separator on, slash or backslash: nothing of
    the directories stays in it. *)
Theorem getTitle_basename doc :
  exists pre base,
    getTitle (Some doc) = Normal (lit "Waveform Render: " ++ base) /\
    fileName doc = pre ++ base /\
    (slash ∉ base) /\ (backslash ∉ base) /\
    (pre = [] \/ exists pre' c, pre = pre' ++ [c] /\ separator c).
Proof.
  unfold getTitle. cbn [document mbind completion_bind].
  destruct (pop_split_on backslash (fileName doc))
    as (pre1 & tail & -> & Hname & Htail & Hpre1).
  cbn [document receiver mbind completion_bind].
  destruct (pop_split_on slash tail)
    as (pre2 & base & -> & -> & Hbase & Hpre2).
  exists (pre1 ++ pre2), base. cbn [plus mret completion_ret].
  split; [reflexivity|]. split; [rewrite Hname, app_assoc; reflexivity|].
  split; [exact Hbase|].
  split; [intros Hin; apply Htail, elem_of_app; right; exact Hin|].
  unfold separator.
  destruct Hpre2 as [->|[pre' ->]].
  - rewrite app_nil_r. destruct Hpre1 as [->|[pre' ->]]; [left; reflexivity|].
    right. eauto.
  - right. exists (pre1 ++ pre'), slash. rewrite app_assoc. eauto.
Qed.

(** The title fails exactly when no text editor is in front. *)
Theorem getTitle_throws_iff (activeTextEditor : option Editor) e :
  getTitle activeTextEditor = Throw e <->
  activeTextEditor = None /\ e = TypeError.
Proof.
  destruct activeTextEditor as [doc|].
  - destruct (getTitle_Normal doc) as [title ->].
    split; [discriminate | intros [[=] _]].
  - cbn. split; [intros [= <-]; done | intros [_ ->]; done].
Qed.

End Title.


(** ** The panel: what each call does *)

Section PanelRuns.

Import Panel PanelInvariant.

Implicit Types (m : Machine) (env : Env) (doc : Editor).
Implicit Types (this : WaveformRenderPanel) (path title : jsstring).

(** Running the monad: binds, reads and writes are computed, the calls of
    functions are left as they are. *)
Ltac run_eff :=
  cbv [mbind Eff_bind mret Eff_ret read lift call create
       set_currentPanel set_livePreview set_livePreviewDocumentPath
       set_listenerTextChange document
       currentPanel livePreview livePreviewDocumentPath listenerTextChange
       nextHandle trace _panel _extensionPath _disposables].

Lemma differs_same path : differs (PathOf path) path = false.
Proof. cbn. apply bool_decide_eq_false_2. intros H. apply H. reflexivity. Qed.

(** Without a text editor in front [createOrShow] throws and has done
    nothing: no panel is made, no title or page is set. *)
Theorem createOrShow_noEditor env path m :
  activeTextEditor env = None ->
  createOrShow env path m = (Throw TypeError, m).
Proof.
  intros Henv. unfold createOrShow. destruct m as [[this|] [] p l n t];
    run_eff; rewrite Henv; reflexivity.
Qed.

Lemma createOrShow_noEditor_witness :
  createOrShow (mkEnv None (fun _ parts => concat parts)) [] initial
  = (Throw TypeError, initial).
Proof. apply createOrShow_noEditor. reflexivity. Defined.

(** A panel is there, the live preview is on and the document in front is
    not the one it was switched on for: [createOrShow] leaves everything
    as it is. *)
Theorem createOrShow_otherDocument env path m this doc :
  currentPanel m = Some this ->
  livePreview m = true ->
  activeTextEditor env = Some doc ->
  differs (livePreviewDocumentPath m) (uriPath doc) = true ->
  createOrShow env path m = (Normal (), m).
Proof.
  destruct m as [cur live p l n t]. run_eff. intros -> -> Henv Hdiff.
  unfold createOrShow. run_eff. rewrite Henv, Hdiff. reflexivity.
Qed.

Lemma createOrShow_otherDocument_witness :
  createOrShow someEnv []
    (mkMachine (Some (mkPanel 0 [] [1%nat])) true (PathOf (lit "/other.json"))
       (Some 2%nat) 3 [])
  = (Normal (),
     mkMachine (Some (mkPanel 0 [] [1%nat])) true (PathOf (lit "/other.json"))
       (Some 2%nat) 3 []).
Proof.
  apply (createOrShow_otherDocument someEnv [] _ (mkPanel 0 [] [1%nat])
           someEditor); reflexivity.
Defined.

(** A panel is there and the document in front is the one to show: its
    title and its page are set again, nothing else. *)
Lemma createOrShow_update env path m this doc title :
  currentPanel m = Some this ->
  activeTextEditor env = Some doc ->
  getTitle (Some doc) = Normal title ->
  (livePreview m = true ->
   differs (livePreviewDocumentPath m) (uriPath doc) = false) ->
  createOrShow env path m
  = (Normal (),
     mkMachine (currentPanel m) (livePreview m) (livePreviewDocumentPath m)
       (listenerTextChange m) (nextHandle m)
       (trace m ++ [SetTitle (_panel this) title;
                    SetHtml (_panel this)
                      (_getHtmlForWebview env this (getText doc))])).
Proof.
  destruct m as [cur live p l n t]. run_eff.
  intros -> Henv Htitle Hdiff.
  unfold createOrShow, _updateWithFileContent, _update.
  destruct live; run_eff; rewrite Henv;
    [rewrite Hdiff by reflexivity|]; rewrite Htitle;
    rewrite <- app_assoc; reflexivity.
Qed.

(** No panel is there: one is made for the document in front. *)
Lemma createOrShow_create env path m doc title :
  currentPanel m = None ->
  activeTextEditor env = Some doc ->
  getTitle (Some doc) = Normal title ->
  createOrShow env path m
  = (Normal (),
     mkMachine (Some (mkPanel (nextHandle m) path [S (nextHandle m)]))
       (livePreview m) (livePreviewDocumentPath m)
       (listenerTextChange m) (S (S (nextHandle m)))
       (trace m ++ [CreateWebviewPanel (nextHandle m) title;
                    SetHtml (nextHandle m)
                      (_getHtmlForWebview env (mkPanel (nextHandle m) path [])
                         (getText doc));
                    OnDidDispose (nextHandle m) (S (nextHandle m)) path])).
Proof.
  destruct m as [cur live p l n t]. run_eff.
  intros -> Henv Htitle.
  unfold createOrShow, constructor, _updateWithFileContent, _update.
  run_eff. rewrite Henv, Htitle. rewrite <- !app_assoc. reflexivity.
Qed.

Lemma disableLivePreview_run m :
  disableLivePreview m
  = (Normal (),
     mkMachine (currentPanel m) false PathNull (listenerTextChange m)
       (nextHandle m)
       (trace m ++ match listenerTextChange m with
                   | Some h => [Dispose h]
                   | None => []
                   end)).
Proof.
  destruct m as [cur live p [h|] n t]; unfold disableLivePreview; run_eff;
    [|rewrite app_nil_r]; reflexivity.
Qed.

Lemma disposeAll_run disposables m :
  disposeAll disposables m
  = (Normal (),
     mkMachine (currentPanel m) (livePreview m) (livePreviewDocumentPath m)
       (listenerTextChange m) (nextHandle m)
       (trace m ++ (Dispose <$> disposables))).
Proof.
  revert m. induction disposables as [|d rest IH]; intros m.
  - destruct m. cbn. rewrite app_nil_r. reflexivity.
  - cbn [disposeAll]. unfold mbind, Eff_bind, call.
    rewrite IH. cbn. rewrite <- app_assoc. reflexivity.
Qed.

Lemma dispose_run this m :
  dispose this m
  = (Normal (),
     mkMachine None (livePreview m) (livePreviewDocumentPath m)
       (listenerTextChange m) (nextHandle m)
       (trace m ++ Dispose (_panel this)
                   :: (Dispose <$> reverse (_disposables this)))).
Proof.
  unfold dispose. unfold mbind, Eff_bind, set_currentPanel, call.
  rewrite disposeAll_run. cbn. rewrite <- app_assoc. reflexivity.
Qed.

(** [createOrShow] in full: it throws and changes nothing, or returns
    after one of three things. *)
Lemma createOrShow_cases env path m :
  createOrShow env path m = (Throw TypeError, m) /\ activeTextEditor env = None
  \/ createOrShow env path m = (Normal (), m)
  \/ (exists this title html,
        currentPanel m = Some this /\
        createOrShow env path m
        = (Normal (),
           mkMachine (currentPanel m) (livePreview m)
             (livePreviewDocumentPath m) (listenerTextChange m) (nextHandle m)
             (trace m ++ [SetTitle (_panel this) title;
                          SetHtml (_panel this) html])))
  \/ (exists title html,
        currentPanel m = None /\
        createOrShow env path m
        = (Normal (),
           mkMachine (Some (mkPanel (nextHandle m) path [S (nextHandle m)]))
             (livePreview m) (livePreviewDocumentPath m)
             (listenerTextChange m) (S (S (nextHandle m)))
             (trace m ++ [CreateWebviewPanel (nextHandle m) title;
                          SetHtml (nextHandle m) html;
                          OnDidDispose (nextHandle m) (S (nextHandle m))
                            path]))).
Proof.
  destruct (activeTextEditor env) as [doc|] eqn:Henv.
  2:{ left. split; [|reflexivity]. unfold createOrShow.
      destruct m as [[this|] [] p l n t]; run_eff; rewrite Henv;
        reflexivity. }
  right. destruct (getTitle_Normal doc) as [title Htitle].
  destruct (currentPanel m) as [this|] eqn:Hcur.
  - destruct (decide (livePreview m = true)) as [Hlive|Hlive];
      [destruct (differs (livePreviewDocumentPath m) (uriPath doc)) eqn:Hdiff|].
    + left. destruct m as [cur live p l n t]. revert Hcur Hlive Hdiff.
      run_eff. intros -> -> Hdiff. unfold createOrShow. run_eff.
      rewrite Henv, Hdiff. reflexivity.
    + right. left. eexists this, title, _. split; [reflexivity|].
      rewrite <- Hcur.
      apply (createOrShow_update env path m this doc title); auto.
    + right. left. eexists this, title, _. split; [reflexivity|].
      rewrite <- Hcur.
      apply (createOrShow_update env path m this doc title); auto.
      congruence.
  - right. right. eexists title, _. split; [reflexivity|].
    apply (createOrShow_create env path m doc title); auto.
Qed.

(** [createOrShow] leaves the live preview alone: whether it is on, for
    which document, and its listener, also when it throws. *)
Theorem createOrShow_frame env path m :
  livePreview (after (createOrShow env path) m) = livePreview m /\
  livePreviewDocumentPath (after (createOrShow env path) m)
  = livePreviewDocumentPath m /\
  listenerTextChange (after (createOrShow env path) m) = listenerTextChange m.
Proof.
  unfold after.
  destruct (createOrShow_cases env path m)
    as [[-> _]|[->|[(this & title & html & _ & ->)|(title & html & _ & ->)]]];
    repeat split.
Qed.

(** With a text editor in front, and unless a panel is there while the
    live preview is on for another document, [createOrShow] ends with a
    panel that shows the document in front: its title is the title of
    that document and its page is the page of its text.  Without a panel
    the live preview is not asked: a panel is made for whatever document
    is in front. *)
Theorem createOrShow_shows env path m doc :
  activeTextEditor env = Some doc ->
  currentPanel m = None \/ livePreview m = false
  \/ differs (livePreviewDocumentPath m) (uriPath doc) = false ->
  exists this title events,
    getTitle (Some doc) = Normal title /\
    currentPanel (after (createOrShow env path) m) = Some this /\
    trace (after (createOrShow env path) m) = trace m ++ events /\
    (SetTitle (_panel this) title ∈ events
     \/ CreateWebviewPanel (_panel this) title ∈ events) /\
    (forall panel html,
       SetHtml panel html ∈ events <->
       panel = _panel this /\
       html = _getHtmlForWebview env this (getText doc)).
Proof.
  intros Henv Hshow. destruct (getTitle_Normal doc) as [title Htitle].
  unfold after. destruct (currentPanel m) as [this|] eqn:Hcur.
  - rewrite (createOrShow_update env path m this doc title Hcur Henv Htitle)
      by (intros Hlive; destruct Hshow as [[=]|[Hoff|Hsame]];
          [congruence | exact Hsame]).
    cbn [snd currentPanel trace]. eexists this, title, _.
    split; [exact Htitle|]. split; [exact Hcur|]. split; [reflexivity|].
    split; [left; left|].
    intros panel html. rewrite !elem_of_cons, elem_of_nil.
    split; [intros [[=]|[[= -> ->]|[]]]; done | intros [-> ->]; auto].
  - rewrite (createOrShow_create env path m doc title Hcur Henv Htitle).
    cbn [snd currentPanel trace]. eexists _, title, _.
    split; [exact Htitle|]. split; [reflexivity|]. split; [reflexivity|].
    split; [right; left|]. cbn [_panel].
    intros panel html. rewrite !elem_of_cons, elem_of_nil.
    split; [intros [[=]|[[= -> ->]|[[=]|[]]]]; done | intros [-> ->]; auto].
Qed.

Lemma createOrShow_shows_witness :
  exists this title events,
    getTitle (Some someEditor) = Normal title /\
    currentPanel (after (createOrShow someEnv []) initial) = Some this /\
    trace (after (createOrShow someEnv []) initial) = trace initial ++ events /\
    (SetTitle (_panel this) title ∈ events
     \/ CreateWebviewPanel (_panel this) title ∈ events) /\
    (forall panel html,
       SetHtml panel html ∈ events <->
       panel = _panel this /\
       html = _getHtmlForWebview someEnv this (getText someEditor)).
Proof.
  apply (createOrShow_shows someEnv [] initial someEditor).
  - reflexivity.
  - left. reflexivity.
Defined.

(** Switching the live preview on, up to the call of [createOrShow]. *)
Lemma toggleLivePreview_on env path m doc :
  livePreview m = false ->
  activeTextEditor env = Some doc ->
  toggleLivePreview env path m
  = (createOrShow env path;;
     live ← read livePreview;
     call (ShowInformationMessage
             (lit "Waveform Live Preview: "
                ++ (if live : bool then lit "ON" else lit "OFF"))))
      (mkMachine (currentPanel m) true (PathOf (uriPath doc))
         (Some (nextHandle m)) (S (nextHandle m))
         (trace m ++ [OnDidChangeTextDocument (nextHandle m) path])).
Proof.
  destruct m as [cur live p l n t]. run_eff. intros -> Henv.
  unfold toggleLivePreview. run_eff. rewrite Henv. reflexivity.
Qed.

Lemma toggleLivePreview_off env path m :
  livePreview m = true ->
  toggleLivePreview env path m
  = (Normal (),
     mkMachine (currentPanel m) false PathNull (listenerTextChange m)
       (nextHandle m)
       ((trace m ++ match listenerTextChange m with
                    | Some h => [Dispose h]
                    | None => []
                    end)
          ++ [ShowInformationMessage (lit "Waveform Live Preview: OFF")])).
Proof.
  intros Hlive. unfold toggleLivePreview.
  unfold mbind at 1. unfold Eff_bind at 1. unfold read at 1. rewrite Hlive.
  unfold mbind at 1. unfold Eff_bind at 1. rewrite disableLivePreview_run.
  reflexivity.
Qed.

(** With a text editor in front, or with the live preview on, the toggle
    returns, the live preview is the other way round, and the last thing
    shown is the message that says which way. *)
Theorem toggleLivePreview_flips env path m :
  livePreview m = true \/ (exists doc, activeTextEditor env = Some doc) ->
  exists m',
    toggleLivePreview env path m = (Normal (), m') /\
    livePreview m' = negb (livePreview m) /\
    last (trace m')
    = Some (ShowInformationMessage
              (lit "Waveform Live Preview: "
                 ++ (if livePreview m' then lit "ON" else lit "OFF"))).
Proof.
  intros Hcan. destruct (livePreview m) eqn:Hlive.
  - eexists. split; [apply toggleLivePreview_off, Hlive|].
    split; [reflexivity|]. cbn [trace livePreview]. apply last_snoc.
  - destruct Hcan as [[=]|[doc Henv]].
    rewrite (toggleLivePreview_on _ _ _ _ Hlive Henv).
    set (m1 := mkMachine _ _ _ _ _ _).
    destruct (getTitle_Normal doc) as [title Htitle].
    assert (Hshow : exists m2,
               createOrShow env path m1 = (Normal (), m2) /\
               livePreview m2 = true).
    { destruct (currentPanel m1) as [this|] eqn:Hcur.
      - eexists. split; [|shelve].
        apply (createOrShow_update env path m1 this doc title); auto.
        intros _. apply differs_same.
        Unshelve. reflexivity.
      - eexists. split; [|shelve].
        apply (createOrShow_create env path m1 doc title); auto.
        Unshelve. reflexivity. }
    destruct Hshow as (m2 & Hshow & Hlive2).
    unfold mbind at 1. unfold Eff_bind at 1. rewrite Hshow.
    destruct m2 as [cur2 live2 p2 l2 n2 t2]. cbn in Hlive2. subst live2.
    eexists. split; [reflexivity|]. split; [reflexivity|].
    cbn [trace livePreview]. apply last_snoc.
Qed.

Lemma toggleLivePreview_flips_witness :
  exists m',
    toggleLivePreview someEnv [] initial = (Normal (), m') /\
    livePreview m' = negb (livePreview initial) /\
    last (trace m')
    = Some (ShowInformationMessage
              (lit "Waveform Live Preview: "
                 ++ (if livePreview m' then lit "ON" else lit "OFF"))).
Proof.
  apply toggleLivePreview_flips. right. exists someEditor. reflexivity.
Defined.

(** Switching the live preview on without a text editor in front throws
    before anything is done: it stays off, no listener is registered and
    no message is shown. *)
Theorem toggleLivePreview_noEditor env path m :
  livePreview m = false ->
  activeTextEditor env = None ->
  toggleLivePreview env path m = (Throw TypeError, m).
Proof.
  destruct m as [cur live p l n t]. run_eff. intros -> Henv.
  unfold toggleLivePreview. run_eff. rewrite Henv. reflexivity.
Qed.

Lemma toggleLivePreview_noEditor_witness :
  toggleLivePreview (mkEnv None (fun _ parts => concat parts)) [] initial
  = (Throw TypeError, initial).
Proof. apply toggleLivePreview_noEditor; reflexivity. Defined.

Lemma start_run env path m :
  start env path m
  = createOrShow env path
      (mkMachine (currentPanel m) false PathNull (listenerTextChange m)
         (nextHandle m)
         ((trace m ++ match listenerTextChange m with
                      | Some h => [Dispose h]
                      | None => []
                      end)
            ++ [ShowInformationMessage
                  (lit "Waveform refreshed manually, Live Preview OFF")])).
Proof.
  unfold start. unfold mbind at 1. unfold Eff_bind at 1.
  rewrite disableLivePreview_run. reflexivity.
Qed.

(** After the command [waveformRender.start] the live preview is off and
    bound to no document, also when the command throws for want of a text
    editor. *)
Theorem start_livePreview_off env path m :
  livePreview (after (start env path) m) = false /\
  livePreviewDocumentPath (after (start env path) m) = PathNull.
Proof.
  unfold after. rewrite start_run.
  set (m1 := mkMachine _ _ _ _ _ _).
  destruct (createOrShow_cases env path m1)
    as [[-> _]|[->|[(this & title & html & _ & ->)|(title & html & _ & ->)]]];
    split; reflexivity.
Qed.

(** *** What the editor holds, call after call *)

Lemma liveListeners_app t es :
  liveListeners (t ++ es) = foldl listen (liveListeners t) es.
Proof. apply foldl_app. Qed.

Lemma livePanels_app t es :
  livePanels (t ++ es) = foldl hook (livePanels t) es.
Proof. apply foldl_app. Qed.

Lemma listen_Dispose_other (held : list (handle * jsstring)) h :
  Forall (fun l => l.1 <> h) held -> listen held (Dispose h) = held.
Proof.
  intros Hall. cbn [listen]. induction Hall as [|l held Hl _ IH]; [reflexivity|].
  rewrite filter_cons_True by exact Hl. rewrite IH. reflexivity.
Qed.

Lemma hook_Dispose_other (held : list WaveformRenderPanel) h :
  Forall (fun this => _panel this <> h) held -> hook held (Dispose h) = held.
Proof.
  intros Hall. cbn [hook]. induction Hall as [|l held Hl _ IH]; [reflexivity|].
  rewrite filter_cons_True by exact Hl. rewrite IH. reflexivity.
Qed.

Lemma listen_Disposes_other (held : list (handle * jsstring)) hs :
  Forall (fun l => l.1 ∉ hs) held ->
  foldl listen held (Dispose <$> hs) = held.
Proof.
  revert held. induction hs as [|h hs IH]; intros held Hall; [reflexivity|].
  cbn [fmap list_fmap foldl]. rewrite listen_Dispose_other.
  - apply IH. eapply Forall_impl; [exact Hall|].
    intros l Hl Hin. apply Hl. right. exact Hin.
  - eapply Forall_impl; [exact Hall|].
    intros l Hl Heq. apply Hl. rewrite Heq. left.
Qed.

Lemma hook_Disposes_nil hs : foldl hook [] (Dispose <$> hs) = [].
Proof. induction hs as [|h hs IH]; [reflexivity | exact IH]. Qed.

(** *** The invariant *)

Lemma consistent_initial path : consistent path initial.
Proof.
  repeat split; try discriminate; cbn; intros; discriminate.
Qed.

(** Consistency looks at the static fields, the next handle and what
    the editor holds, and at nothing else of the trace. *)
Lemma consistent_same extensionPath m m' :
  currentPanel m' = currentPanel m ->
  livePreview m' = livePreview m ->
  livePreviewDocumentPath m' = livePreviewDocumentPath m ->
  listenerTextChange m' = listenerTextChange m ->
  nextHandle m' = nextHandle m ->
  liveListeners (trace m') = liveListeners (trace m) ->
  livePanels (trace m') = livePanels (trace m) ->
  consistent extensionPath m -> consistent extensionPath m'.
Proof.
  unfold consistent, bounded, apart, oneListener, onePanel, pathSet.
  intros -> -> -> -> -> -> ->. tauto.
Qed.

Ltac split_consistent :=
  split; [split|split; [|split; [|split]]].

Lemma consistent_createOrShow extensionPath env path m :
  consistent extensionPath m ->
  consistent extensionPath (after (createOrShow env path) m).
Proof.
  intros Hm. unfold after.
  destruct (createOrShow_cases env path m)
    as [[-> _]|[->|[(this & title & html & Hcur & ->)
                   |(title & html & Hcur & ->)]]];
    [exact Hm | exact Hm | |]; cbn [snd].
  - (* the title and the page are set again *)
    revert Hm. apply consistent_same; try reflexivity; cbn [trace];
      [rewrite liveListeners_app | rewrite livePanels_app]; reflexivity.
  - (* a panel is made *)
    destruct Hm as ((Hbl & Hbp) & Hapart & Hlisten & Hpanel & Hpath).
    assert (Hnone : livePanels (trace m) = [])
      by (unfold onePanel in Hpanel; rewrite Hcur in Hpanel; exact Hpanel).
    split_consistent.
    + cbn. intros h Hh. specialize (Hbl h Hh). lia.
    + cbn. intros this [= <-]. cbn. split; [lia|]. repeat constructor.
    + intros h this. cbn. intros Hh [= <-]. cbn. specialize (Hbl h Hh).
      rewrite list_elem_of_singleton. lia.
    + unfold oneListener in *. cbn [livePreview listenerTextChange trace].
      rewrite liveListeners_app. exact Hlisten.
    + unfold onePanel. cbn [currentPanel trace].
      rewrite livePanels_app, Hnone. reflexivity.
    + exact Hpath.
Qed.

Lemma consistent_message extensionPath m message :
  consistent extensionPath m ->
  consistent extensionPath
    (mkMachine (currentPanel m) (livePreview m) (livePreviewDocumentPath m)
       (listenerTextChange m) (nextHandle m)
       (trace m ++ [ShowInformationMessage message])).
Proof.
  apply consistent_same; try reflexivity; cbn [trace];
    [rewrite liveListeners_app | rewrite livePanels_app]; reflexivity.
Qed.

Lemma consistent_disable extensionPath m :
  consistent extensionPath m ->
  consistent extensionPath
    (mkMachine (currentPanel m) false PathNull (listenerTextChange m)
       (nextHandle m)
       (trace m ++ match listenerTextChange m with
                   | Some h => [Dispose h]
                   | None => []
                   end)).
Proof.
  intros ((Hbl & Hbp) & Hapart & Hlisten & Hpanel & Hpath).
  split_consistent; try assumption.
  - (* no listener is held any more *)
    unfold oneListener in *. cbn [livePreview trace].
    rewrite liveListeners_app.
    destruct (livePreview m).
    + destruct Hlisten as (h & -> & ->). cbn.
      rewrite decide_False by auto. reflexivity.
    + rewrite Hlisten. destruct (listenerTextChange m); reflexivity.
  - (* the panel stays *)
    unfold onePanel in *. cbn [currentPanel trace].
    rewrite livePanels_app, Hpanel.
    destruct (listenerTextChange m) as [h|] eqn:Hl; [|reflexivity].
    cbn [foldl]. apply hook_Dispose_other.
    destruct (currentPanel m) as [this|] eqn:Hcur; [|constructor].
    repeat constructor. intros Heq.
    destruct (Hapart h this Hl Hcur) as [Hne _]. congruence.
  - intros [=].
Qed.

Lemma consistent_enable extensionPath m doc :
  livePreview m = false ->
  consistent extensionPath m ->
  consistent extensionPath
    (mkMachine (currentPanel m) true (PathOf (uriPath doc))
       (Some (nextHandle m)) (S (nextHandle m))
       (trace m ++ [OnDidChangeTextDocument (nextHandle m) extensionPath])).
Proof.
  intros Hlive ((Hbl & Hbp) & Hapart & Hlisten & Hpanel & Hpath).
  unfold oneListener in Hlisten. rewrite Hlive in Hlisten.
  split_consistent.
  - cbn. intros h [= <-]. lia.
  - cbn. intros this Hthis. destruct (Hbp this Hthis) as [Hp Hd].
    split; [lia|]. eapply Forall_impl; [exact Hd|]. cbn. intros; lia.
  - intros h this. cbn. intros [= <-] Hthis.
    destruct (Hbp this Hthis) as [Hp Hd]. split; [lia|].
    rewrite Forall_forall in Hd. intros Hin. specialize (Hd _ Hin). lia.
  - unfold oneListener. cbn [livePreview listenerTextChange trace].
    eexists. split; [reflexivity|].
    rewrite liveListeners_app, Hlisten. reflexivity.
  - unfold onePanel in *. cbn [currentPanel trace].
    rewrite livePanels_app. exact Hpanel.
  - intros _. eexists. reflexivity.
Qed.

Lemma consistent_dispose extensionPath m this :
  this ∈ livePanels (trace m) ->
  consistent extensionPath m ->
  consistent extensionPath (after (dispose this) m).
Proof.
  intros Hin ((Hbl & Hbp) & Hapart & Hlisten & Hpanel & Hpath).
  unfold after. rewrite dispose_run. cbn [snd].
  unfold onePanel in Hpanel. rewrite Hpanel in Hin.
  destruct (currentPanel m) as [cur|] eqn:Hcur;
    [|apply elem_of_nil in Hin; destruct Hin].
  apply list_elem_of_singleton in Hin. subst cur.
  split_consistent; try assumption.
  - cbn. intros this' [=].
  - intros h this'. cbn. intros _ [=].
  - (* the listener stays *)
    unfold oneListener in *. cbn [livePreview listenerTextChange trace].
    rewrite liveListeners_app. cbn [foldl].
    destruct (livePreview m); [|rewrite Hlisten; cbn;
      apply (listen_Disposes_other []); constructor].
    destruct Hlisten as (h & Hl & Hheld). exists h. split; [exact Hl|].
    destruct (Hapart h this Hl Hcur) as [Hne Hnin].
    rewrite Hheld, listen_Dispose_other by (repeat constructor; exact Hne).
    apply listen_Disposes_other. repeat constructor. cbn.
    rewrite elem_of_reverse. exact Hnin.
  - (* the panel is gone *)
    unfold onePanel. cbn [currentPanel trace].
    rewrite livePanels_app, Hpanel.
    change (option_list (Some this)) with [this]. cbn [foldl hook].
    rewrite filter_cons_False by (cbn; auto). rewrite filter_nil.
    apply hook_Disposes_nil.
Qed.

Lemma consistent_step extensionPath m m' :
  consistent extensionPath m -> step extensionPath m m' ->
  consistent extensionPath m'.
Proof.
  intros Hm Hstep. destruct Hstep as [env m|env m|env m h path Hin|m this Hin].
  - (* the command that starts the panel *)
    rewrite start_run. apply consistent_createOrShow.
    apply (consistent_message _ (mkMachine _ _ _ _ _ _)).
    apply consistent_disable, Hm.
  - (* the command that toggles the live preview *)
    destruct (livePreview m) eqn:Hlive.
    + rewrite (toggleLivePreview_off _ _ _ Hlive). cbn [snd].
      apply (consistent_message _ (mkMachine _ _ _ _ _ _)).
      apply consistent_disable, Hm.
    + destruct (activeTextEditor env) as [doc|] eqn:Henv.
      2:{ replace (toggleLivePreview env extensionPath m).2 with m;
            [exact Hm|].
          destruct m as [cur live p l n t]. revert Hlive. run_eff.
          intros ->. unfold toggleLivePreview. run_eff. rewrite Henv.
          reflexivity. }
      rewrite (toggleLivePreview_on _ _ _ _ Hlive Henv).
      pose proof (consistent_createOrShow extensionPath env extensionPath _
                    (consistent_enable _ _ doc Hlive Hm)) as Hshown.
      unfold after in Hshown. unfold mbind at 1. unfold Eff_bind at 1.
      destruct (createOrShow env extensionPath _) as [[[]|e] m2];
        [|exact Hshown].
      cbn [snd] in Hshown. run_eff. destruct m2. cbn [snd].
      apply (consistent_message _ (mkMachine _ _ _ _ _ _)). exact Hshown.
  - (* a listener is called *)
    apply consistent_createOrShow, Hm.
  - (* a panel is closed *)
    apply consistent_dispose; assumption.
Qed.

Lemma reachable_consistent extensionPath m :
  reachable extensionPath m -> consistent extensionPath m.
Proof.
  induction 1 as [|m m' _ IH Hstep]; [apply consistent_initial|].
  eapply consistent_step; eassumption.
Qed.

(** Whatever commands are run and whatever the editor calls back, it
    holds exactly one text-change listener while the live preview is on,
    the one in [listenerTextChange], made for a document path, and none
    while it is off: no listener is left behind. *)
Theorem reachable_oneListener extensionPath m :
  reachable extensionPath m ->
  if livePreview m then
    exists h path,
      listenerTextChange m = Some h /\
      liveListeners (trace m) = [(h, extensionPath)] /\
      livePreviewDocumentPath m = PathOf path
  else liveListeners (trace m) = [].
Proof.
  intros Hm. apply reachable_consistent in Hm.
  destruct Hm as (_ & _ & Hlisten & _ & Hpath).
  unfold oneListener, pathSet in *. destruct (livePreview m); [|exact Hlisten].
  destruct Hlisten as (h & Hl & Hheld). destruct (Hpath eq_refl) as [path Hp].
  eauto.
Qed.

Lemma reachable_oneListener_witness :
  if livePreview (after (toggleLivePreview someEnv []) initial) then
    exists h path,
      listenerTextChange (after (toggleLivePreview someEnv []) initial)
      = Some h /\
      liveListeners (trace (after (toggleLivePreview someEnv []) initial))
      = [(h, [])] /\
      livePreviewDocumentPath (after (toggleLivePreview someEnv []) initial)
      = PathOf path
  else
    liveListeners (trace (after (toggleLivePreview someEnv []) initial)) = [].
Proof.
  apply (reachable_oneListener []).
  apply (reachable_step [] initial); [apply reachable_initial|].
  apply step_toggle.
Defined.

(** Whatever commands are run and whatever the editor calls back, the
    editor holds the panel in [currentPanel] and no other: there is never
    more than one panel. *)
Theorem reachable_onePanel extensionPath m :
  reachable extensionPath m ->
  livePanels (trace m) = option_list (currentPanel m).
Proof.
  intros Hm. apply reachable_consistent in Hm.
  destruct Hm as (_ & _ & _ & Hpanel & _). exact Hpanel.
Qed.

Lemma reachable_onePanel_witness :
  livePanels (trace (after (start someEnv []) initial))
  = option_list (currentPanel (after (start someEnv []) initial)).
Proof.
  apply (reachable_onePanel []).
  apply (reachable_step [] initial); [apply reachable_initial|].
  apply step_start.
Defined.

(** *** The page *)

Lemma concat_middle {A} (pre post : list (list A)) (x : list A) l :
  l = pre ++ x :: post -> concat l = concat pre ++ x ++ concat post.
Proof. intros ->. rewrite concat_app. reflexivity. Qed.

Lemma middle_here {A} (x : A) post : x :: post = [] ++ x :: post.
Proof. reflexivity. Qed.

Lemma middle_later {A} (x y : A) l pre post :
  l = pre ++ x :: post -> y :: l = (y :: pre) ++ x :: post.
Proof. intros ->. reflexivity. Qed.

(** The page holds the text of the document as it is, once, between a
    head and a tail that do not depend on it: nothing in it is escaped. *)
Theorem getHtmlForWebview_embeds env this :
  exists head tail,
    forall waveformJson,
      _getHtmlForWebview env this waveformJson
      = head ++ waveformJson ++ tail.
Proof.
  eexists _, _. intros waveformJson. unfold _getHtmlForWebview. cbv zeta.
  apply concat_middle.
  repeat first [ apply middle_here | apply middle_later ].
Qed.

End PanelRuns.


(** ** The command that writes the ASCII art *)

Section CommandProps.

Import Command CommandCourse.

Implicit Types (host : Host) (signals : list Signal).
Implicit Types (content language filePath fileContent : jsstring).

Ltac run_act :=
  cbv [run generateAscii generateAsciiBody try_catch mbind Act_bind mret
       Act_ret answer call render snd app
       showOpenDialog readFileSync JSON_parse openTextDocument
       showTextDocument].

Lemma run_course host : course host (run host).
Proof.
  destruct host as [dialog read parse open show].
  run_act.
  destruct dialog as [[[|filePath others]|]|x] eqn:Hdialog;
    [eapply nothing_selected; cbn; eauto | |
     eapply nothing_selected; cbn; eauto |
     eapply dialog_raised; cbn; eauto].
  destruct (read filePath) as [fileContent|x] eqn:Hread;
    [|eapply read_raised; cbn; eauto].
  destruct (parse fileContent) as [[|[|signals]]|x] eqn:Hparse;
    [eapply no_signal_array; cbn; eauto |
     eapply no_signal_array; cbn; eauto | |
     eapply parse_raised; cbn; eauto].
  destruct (generateAsciiArt signals) as [content|e] eqn:Hrender;
    [|eapply render_raised; cbn; eauto].
  destruct (open content) as [document|x] eqn:Hopen;
    [|eapply open_raised; cbn; eauto].
  destruct (show document) as [[]|x] eqn:Hshow;
    [eapply shown; cbn; eauto | eapply show_raised; cbn; eauto].
Qed.

(** A text document is opened exactly when a file was chosen, read and
    decoded, its [signal] is an array and the renderer returned: the
    document then holds the rendering, as plain text. *)
Theorem run_opens host content language :
  OpenTextDocument content language ∈ run host <->
  exists filePath others fileContent signals,
    showOpenDialog host = Returned (Some (filePath :: others)) /\
    readFileSync host filePath = Returned fileContent /\
    JSON_parse host fileContent = Returned (Truthy (SignalArray signals)) /\
    generateAsciiArt signals = Normal content /\
    language = lit "plaintext".
Proof.
  pose proof (run_course host) as Hcourse. split.
  - intros Hin. unfold caught, failed, invalid in *.
    destruct Hcourse;
      repeat (apply elem_of_cons in Hin as [Hin|Hin]; [try discriminate Hin|]);
      try (apply elem_of_nil in Hin; destruct Hin);
      injection Hin as -> ->; eauto 10.
  - intros (filePath & others & fileContent & signals
            & Hdialog & Hread & Hparse & Hrender & ->).
    destruct Hcourse as
      [ x H1 | fileUri H1 H2 | p o x H1 H2 | p o c x H1 H2 H3
      | p o c parsed H1 H2 H3 H4 | p o c sig e H1 H2 H3 H4
      | p o c sig text x H1 H2 H3 H4 H5
      | p o c sig text doc x H1 H2 H3 H4 H5 H6
      | p o c sig text doc H1 H2 H3 H4 H5 H6 ];
      rewrite Hdialog in H1;
      try discriminate H1;
      try (destruct H2; subst; discriminate H1);
      injection H1 as <- <-;
      rewrite Hread in H2; try discriminate H2; injection H2 as <-;
      rewrite Hparse in H3; try discriminate H3;
      try (destruct H4; subst; discriminate H3);
      injection H3 as <-;
      rewrite Hrender in H4; try discriminate H4; injection H4 as <-;
      left.
Qed.

(** Every run tells the user one thing: it ends with a message, the
    only one it shows, or it shows the text document and no message. *)
Theorem run_feedback host :
  (exists content document,
     run host
     = [OpenTextDocument content (lit "plaintext");
        ShowTextDocument document])
  \/ (exists message,
        filter (fun e => isMessage e = true) (run host) = [message] /\
        last (run host) = Some message).
Proof.
  destruct (run_course host); [right..|left; eauto];
    eexists; split; reflexivity.
Qed.

(** When a signal of the chosen file lacks its name or its wave, a spacer
    row [{}] for one, no text document is opened: the [TypeError] of the
    renderer goes to the console and the user is told that an error
    occurred. *)
Theorem run_missingField host filePath others fileContent signals :
  showOpenDialog host = Returned (Some (filePath :: others)) ->
  readFileSync host filePath = Returned fileContent ->
  JSON_parse host fileContent = Returned (Truthy (SignalArray signals)) ->
  Exists missingField signals ->
  run host = caught (FromRenderer TypeError).
Proof.
  intros Hdialog Hread Hparse Hmissing.
  apply generateAsciiArt_missing in Hmissing.
  destruct host as [dialog read parse open show]. cbn in *. subst dialog.
  run_act. rewrite Hread, Hparse, Hmissing. reflexivity.
Qed.

Lemma run_missingField_witness :
  run (mkHost (Returned (Some [lit "/tmp/wave.json"]))
         (fun _ => Returned (lit "{ signal: [ {} ] }"))
         (fun _ =>
            Returned (Truthy (SignalArray [mkSignal Undefined Undefined None])))
         (fun _ => Returned 0%nat)
         (fun _ => Returned ()))
  = caught (FromRenderer TypeError).
Proof.
  apply (run_missingField _ (lit "/tmp/wave.json") []
           (lit "{ signal: [ {} ] }") [mkSignal Undefined Undefined None]);
    try reflexivity.
  apply Exists_cons_hd. left. reflexivity.
Defined.

End CommandProps.
